(** * lab4.py: clinic visit records, their collection and its CSV persistence

    A shallow embedding of [src/lab4.py].

    Conventions of the embedding.
    - A Python [str] is a Rocq [string] holding its UTF-8 encoding, which is
      also what the files hold ([encoding='utf-8']).  Comparing two encodings
      byte by byte orders them as Python orders the code points, and [len] is
      the number of bytes that are not continuation bytes.
    - A Python [int] is a [Z].
    - Every [MedicalRecordsCollection] object is a cell of an object store;
      methods are state transformers over a [world] made of the store, the
      file system and the console.
    - The slots of a record hold values of the annotated types.
    - The library code the program calls ([sorted], [int], [str], [csv],
      [open]) is modelled after CPython 3.11, without resource limits. *)

From Stdlib Require Import ZArith Ascii String List DecimalString DecimalPos DecimalZ Lia.
From stdpp Require Import base tactics option list sorting gmap strings.

Local Open Scope Z_scope.

(** ** Characters the program and the csv dialect depend on *)

Definition LF : ascii := "010"%char.
Definition CR : ascii := "013"%char.
Definition QUOTE : ascii := "034"%char.
Definition COMMA : ascii := ","%char.
Definition SPACE : ascii := " "%char.

(** ** Built-ins *)

Module Py.

(** [str(n)] for an int. *)
Definition str (n : Z) : string := NilZero.string_of_int (Z.to_int n).

(** A byte [10xxxxxx] continues a code point started earlier. *)
Definition is_continuation (c : ascii) : bool :=
  let n := N_of_ascii c in ((128 <=? n) && (n <? 192))%N.

(** [len(s)]: the number of code points. *)
Fixpoint len (s : string) : nat :=
  match s with
  | EmptyString => 0%nat
  | String c s' => if is_continuation c then len s' else S (len s')
  end.

Fixpoint spaces (n : nat) : string :=
  match n with
  | O => EmptyString
  | S n' => String SPACE (spaces n')
  end.

(** [format(s, 'w')] for a str: left aligned in a field of width [w]. *)
Definition ljust (w : nat) (s : string) : string := s +:+ spaces (w - len s).

(** [format(n, 'w')] for an int: right aligned in a field of width [w]. *)
Definition rjust (w : nat) (n : Z) : string :=
  let s := str n in spaces (w - len s) +:+ s.

(** Truth value of a str. *)
Definition truthy (s : string) : bool :=
  match s with EmptyString => false | String _ _ => true end.

(** [datetime.date], with [isoformat()] giving [YYYY-MM-DD]. *)
Record date := Date { year : nat; month : nat; day : nat }.

Definition zfill (w : nat) (n : nat) : string :=
  let s := str (Z.of_nat n) in
  String.concat EmptyString (replicate (w - String.length s) "0") +:+ s.

Definition isoformat (d : date) : string :=
  zfill 4 (year d) +:+ "-" +:+ zfill 2 (month d) +:+ "-" +:+ zfill 2 (day d).

(** The value bits of the first byte of a UTF-8 sequence. *)
Definition leading_bits (n : N) : N :=
  (if n <? 128 then n
   else if n <? 224 then n - 192
   else if n <? 240 then n - 224
   else n - 240)%N.

(** The code points of a str; [cur] is the code point whose bytes are being
    read. *)
Fixpoint code_points_from (cur : option N) (s : string) : list N :=
  match s with
  | EmptyString => option_list cur
  | String c s' =>
      if is_continuation c
      then code_points_from ((λ cp, cp * 64 + (N_of_ascii c - 128))%N <$> cur) s'
      else option_list cur ++ code_points_from (Some (leading_bits (N_of_ascii c))) s'
  end.

Definition code_points (s : string) : list N := code_points_from None s.

Fixpoint is_ascii (s : string) : bool :=
  match s with
  | EmptyString => true
  | String c s' => (N_of_ascii c <? 128)%N && is_ascii s'
  end.

(** The white space of Unicode 14.0 from code point 127 on. *)
Definition unicode_spaces : list N :=
  [133; 160; 5760; 8192; 8193; 8194; 8195; 8196; 8197; 8198; 8199; 8200; 8201;
   8202; 8232; 8233; 8239; 8287; 12288]%N.

(** The digit zero of every run of decimal digits of Unicode 14.0 (the
    characters of category [Nd]); the digits 1 to 9 are the nine code points
    behind it. *)
Definition decimal_zeros : list N :=
  [48; 1632; 1776; 1984; 2406; 2534; 2662; 2790; 2918; 3046; 3174; 3302; 3430;
   3558; 3664; 3792; 3872; 4160; 4240; 6112; 6160; 6470; 6608; 6784; 6800;
   6992; 7088; 7232; 7248; 42528; 43216; 43264; 43472; 43504; 43600; 44016;
   65296; 66720; 68912; 69734; 69872; 69942; 70096; 70384; 70736; 70864;
   71248; 71360; 71472; 71904; 72016; 72784; 73040; 73120; 92768; 92864;
   93008; 120782; 120792; 120802; 120812; 120822; 123200; 123632; 125264;
   130032]%N.

Definition to_decimal (cp : N) : option N :=
  (λ zero, cp - zero)%N <$>
  List.find (λ zero, (zero <=? cp) && (cp <? zero + 10))%N decimal_zeros.

(** What [int] makes of a str before it parses it: a str that is not ASCII
    has its white space turned into spaces, its decimal digits into the
    digits [0] to [9], and every other character from 127 on into a
    question mark. *)
Definition ascii_of_code_point (cp : N) : ascii :=
  if (cp <? 127)%N then ascii_of_N cp
  else if existsb (N.eqb cp) unicode_spaces then SPACE
  else match to_decimal cp with
       | Some d => ascii_of_N (48 + d)
       | None => "?"%char
       end.

Definition transform_decimal_and_space (s : string) : string :=
  if is_ascii s then s
  else string_of_list_ascii (ascii_of_code_point <$> code_points s).

(** The integer literal of an ASCII text: white space around an optional
    sign and decimal digits, where single underscores may separate digits.
    [None] stands for [ValueError]. *)
Definition is_space (c : ascii) : bool :=
  let n := N_of_ascii c in (((9 <=? n) && (n <=? 13)) || (n =? 32))%N.

Definition is_empty (s : string) : bool :=
  match s with EmptyString => true | String _ _ => false end.

Fixpoint lstrip (s : string) : string :=
  match s with
  | EmptyString => EmptyString
  | String c s' => if is_space c then lstrip s' else s
  end.

Fixpoint rstrip (s : string) : string :=
  match s with
  | EmptyString => EmptyString
  | String c s' =>
      let r := rstrip s' in
      if is_space c && is_empty r then EmptyString else String c r
  end.

Definition strip (s : string) : string := rstrip (lstrip s).

Definition UNDERSCORE : ascii := "_"%char.

(** Underscores are neither first, nor last, nor doubled. *)
Fixpoint underscores_ok (prev_digit : bool) (s : string) : bool :=
  match s with
  | EmptyString => prev_digit
  | String c s' =>
      if Ascii.eqb c UNDERSCORE then prev_digit && underscores_ok false s'
      else underscores_ok true s'
  end.

Fixpoint remove_underscores (s : string) : string :=
  match s with
  | EmptyString => EmptyString
  | String c s' =>
      if Ascii.eqb c UNDERSCORE then remove_underscores s'
      else String c (remove_underscores s')
  end.

Definition digits (s : string) : option Z :=
  if underscores_ok false s
  then Z.of_uint <$> NilZero.uint_of_string (remove_underscores s)
  else None.

Definition long_from_string (s : string) : option Z :=
  match strip s with
  | String "-" s' => Z.opp <$> digits s'
  | String "+" s' => digits s'
  | s' => digits s'
  end.

(** [int(s)] for a str. *)
Definition int (s : string) : option Z :=
  long_from_string (transform_decimal_and_space s).

(** [sorted(xs, key=key)]: the stable sort, written as the insertion of
    each element, left to right, behind the last element that is not greater
    than it.  Only [<] on keys is used, as in CPython. *)
Section sorted.
Context {A K : Type} (key : A → K) (lt : K → K → bool).

Fixpoint insort (x : A) (l : list A) : list A :=
  match l with
  | [] => [x]
  | y :: l' => if lt (key x) (key y) then x :: y :: l' else y :: insort x l'
  end.

Definition sorted (l : list A) : list A :=
  foldl (λ acc x, insort x acc) [] l.
End sorted.

End Py.

(** ** Records *)

(** The slots of [MedicalRecord]. *)
Record slots := Slots {
  _id : Z;
  _patient_name : string;
  _doctor_name : string;
  _reason : string;
  _duration : Z;
  _date : string
}.

(** An element of a collection is an instance of [MedicalRecord] itself or
    of its subclass [EmergencyRecord], which adds the slot [_urgency]. *)
Inductive record :=
| MedicalRecord (s : slots)
| EmergencyRecord (s : slots) (_urgency : Z).

Definition base (r : record) : slots :=
  match r with
  | MedicalRecord s => s
  | EmergencyRecord s _ => s
  end.

(** The read-only properties. *)
Module Rec.
Definition id (r : record) : Z := _id (base r).
Definition patient_name (r : record) : string := _patient_name (base r).
Definition doctor_name (r : record) : string := _doctor_name (base r).
Definition reason (r : record) : string := _reason (base r).
Definition duration (r : record) : Z := _duration (base r).
Definition date (r : record) : string := _date (base r).
End Rec.

(** [isinstance(record, EmergencyRecord)] *)
Definition is_emergency (r : record) : bool :=
  match r with
  | MedicalRecord _ => false
  | EmergencyRecord _ _ => true
  end.

(** [getattr(record, 'urgency', default)] *)
Definition getattr_urgency (r : record) (default : Z) : Z :=
  match r with
  | MedicalRecord _ => default
  | EmergencyRecord _ u => u
  end.

(** [date or datetime.date.today().isoformat()] *)
Definition date_or_today (today : Py.date) (date : option string) : string :=
  match date with
  | Some d => if Py.truthy d then d else Py.isoformat today
  | None => Py.isoformat today
  end.

(** [MedicalRecord.__init__] *)
Definition MedicalRecord_init (today : Py.date)
    (id : Z) (patient_name doctor_name reason : string) (duration : Z)
    (date : option string) : record :=
  MedicalRecord (Slots id patient_name doctor_name reason duration
                       (date_or_today today date)).

(** [EmergencyRecord.__init__] *)
Definition EmergencyRecord_init (today : Py.date)
    (id : Z) (patient_name doctor_name reason : string) (duration : Z)
    (urgency : Z) (date : option string) : record :=
  EmergencyRecord (Slots id patient_name doctor_name reason duration
                         (date_or_today today date)) urgency.

(** [MedicalRecord.__str__] *)
Definition MedicalRecord_str (s : slots) : string :=
  Py.rjust 3 (_id s) +:+ " | " +:+ Py.ljust 20 (_patient_name s) +:+ " | " +:+
  Py.ljust 15 (_doctor_name s) +:+ " | " +:+ Py.ljust 20 (_reason s) +:+ " | " +:+
  Py.rjust 4 (_duration s) +:+ " мин | " +:+ _date s.

(** [EmergencyRecord.URGENCY_LEVELS] *)
Definition URGENCY_LEVELS : gmap Z string :=
  <[1 := "критическая"]> (<[2 := "высокая"]> (<[3 := "средняя"]> ∅)).

(** [self.URGENCY_LEVELS.get(self.urgency, "неизвестная")] *)
Definition urgency_str (urgency : Z) : string :=
  default "неизвестная" (URGENCY_LEVELS !! urgency).

(** [EmergencyRecord.__str__] *)
Definition EmergencyRecord_str (s : slots) (urgency : Z) : string :=
  MedicalRecord_str s +:+ " | Срочность: " +:+ urgency_str urgency.

(** [str(record)], dispatched on the class. *)
Definition record_str (r : record) : string :=
  match r with
  | MedicalRecord s => MedicalRecord_str s
  | EmergencyRecord s u => EmergencyRecord_str s u
  end.

(** ** Exceptions, results and the world *)

Inductive exn :=
| FileNotFoundError
| KeyError (key : string)
| ValueError (literal : string)
| TypeError
| IndexError
| csv_Error.

Inductive result (A : Type) :=
| Ok (a : A)
| Raise (e : exn).
Arguments Ok {A} a.
Arguments Raise {A} e.

(** A line on the console: a fixed text, or a text ending in [{e}]. *)
Inductive output :=
| Print (line : string)
| PrintExn (prefix : string) (e : exn).

(** A reference to a [MedicalRecordsCollection] object. *)
Definition ref := nat.

(** [heap] gives the [_records] list of every collection object, [files] the
    content of every existing file, [stdout] what was printed so far. *)
Record world := World {
  heap : list (list record);
  files : gmap string string;
  stdout : list output
}.

Definition M (A : Type) : Type := world → A * world.

Global Instance M_ret : MRet M := λ A a w, (a, w).

Global Instance M_bind : MBind M :=
  λ A B k m w, let (a, w') := m w in k a w'.

Definition print (o : output) : M unit :=
  λ w, (tt, World (heap w) (files w) (stdout w ++ [o])).


(** ** The csv module, excel dialect *)

Module csv.

(** *** Writer *)

(** A value handed to the writer. *)
Inductive value :=
| VStr (s : string)
| VInt (n : Z)
| VNone.

(** The text of a field: [str(field)], and nothing for [None]. *)
Definition field_text (v : value) : string :=
  match v with
  | VStr s => s
  | VInt n => Py.str n
  | VNone => EmptyString
  end.

(** A field holding the delimiter, the quote character or a character of
    the line terminator is quoted. *)
Definition special (c : ascii) : bool :=
  Ascii.eqb c COMMA || Ascii.eqb c QUOTE || Ascii.eqb c CR || Ascii.eqb c LF.

Fixpoint has_special (s : string) : bool :=
  match s with
  | EmptyString => false
  | String c s' => special c || has_special s'
  end.

(** Inside quotes, the quote character is doubled. *)
Fixpoint double_quotes (s : string) : string :=
  match s with
  | EmptyString => EmptyString
  | String c s' =>
      if Ascii.eqb c QUOTE then String QUOTE (String QUOTE (double_quotes s'))
      else String c (double_quotes s')
  end.

Definition join_append (field : string) : string :=
  if has_special field
  then String QUOTE (double_quotes field +:+ String QUOTE EmptyString)
  else field.

Fixpoint join (fields : list string) : string :=
  match fields with
  | [] => EmptyString
  | [f] => f
  | f :: fs => f +:+ String COMMA (join fs)
  end.

Definition lineterminator : string := String CR (String LF EmptyString).

(** [writer.writerow]: the text of one row.  A row made of a single empty
    field is written as a pair of quotes. *)
Definition writerow (row : list value) : string :=
  match row with
  | [v] =>
      if Py.is_empty (field_text v)
      then String QUOTE (String QUOTE lineterminator)
      else join_append (field_text v) +:+ lineterminator
  | _ => join (join_append ∘ field_text <$> row) +:+ lineterminator
  end.

(** [DictWriter._dict_to_list] with [extrasaction='raise'] and
    [restval=''], then [writer.writerow]. *)
Definition DictWriter_writerow (fieldnames : list string)
    (rowdict : gmap string value) : result string :=
  match filter (λ k, k ∉ fieldnames) (map_to_list rowdict).*1 with
  | [] => Ok (writerow ((λ k, default (VStr EmptyString) (rowdict !! k)) <$> fieldnames))
  | k :: _ => Raise (ValueError k)
  end.

(** [DictWriter.writeheader] *)
Definition DictWriter_writeheader (fieldnames : list string) : string :=
  writerow (VStr <$> fieldnames).

(** *** Reader *)

Inductive ParserState :=
| START_RECORD
| START_FIELD
| IN_FIELD
| IN_QUOTED_FIELD
| QUOTE_IN_QUOTED_FIELD
| EAT_CRNL.

Global Instance ParserState_eq_dec : EqDecision ParserState.
Proof. solve_decision. Defined.

(** The fields of the record being read, and the field being read. *)
Record ReaderObj := Reader {
  state : ParserState;
  fields : list string;
  field : string
}.

Definition parse_reset : ReaderObj := Reader START_RECORD [] EmptyString.

Definition parse_save_field (self : ReaderObj) (st : ParserState) : ReaderObj :=
  Reader st (fields self ++ [field self]) EmptyString.

Definition parse_add_char (self : ReaderObj) (c : ascii) (st : ParserState)
    : ReaderObj :=
  Reader st (fields self) (field self +:+ String c EmptyString).

Definition set_state (self : ReaderObj) (st : ParserState) : ReaderObj :=
  Reader st (fields self) (field self).

Definition is_newline (c : ascii) : bool := Ascii.eqb c LF || Ascii.eqb c CR.

(** [parse_process_char]; [None] is the end-of-line mark given after the
    characters of every line. *)
Definition parse_process_char (self : ReaderObj) (c : option ascii)
    : result ReaderObj :=
  match state self with
  | START_RECORD | START_FIELD =>
      match c with
      | None =>
          if decide (state self = START_RECORD) then Ok self
          else Ok (parse_save_field self START_RECORD)
      | Some c =>
          if is_newline c then
            if decide (state self = START_RECORD) then Ok (set_state self EAT_CRNL)
            else Ok (parse_save_field self EAT_CRNL)
          else if Ascii.eqb c QUOTE then Ok (set_state self IN_QUOTED_FIELD)
          else if Ascii.eqb c COMMA then Ok (parse_save_field self START_FIELD)
          else Ok (parse_add_char self c IN_FIELD)
      end
  | IN_FIELD =>
      match c with
      | None => Ok (parse_save_field self START_RECORD)
      | Some c =>
          if is_newline c then Ok (parse_save_field self EAT_CRNL)
          else if Ascii.eqb c COMMA then Ok (parse_save_field self START_FIELD)
          else Ok (parse_add_char self c IN_FIELD)
      end
  | IN_QUOTED_FIELD =>
      match c with
      | None => Ok self
      | Some c =>
          if Ascii.eqb c QUOTE then Ok (set_state self QUOTE_IN_QUOTED_FIELD)
          else Ok (parse_add_char self c IN_QUOTED_FIELD)
      end
  | QUOTE_IN_QUOTED_FIELD =>
      match c with
      | None => Ok (parse_save_field self START_RECORD)
      | Some c =>
          if Ascii.eqb c QUOTE then Ok (parse_add_char self c IN_QUOTED_FIELD)
          else if Ascii.eqb c COMMA then Ok (parse_save_field self START_FIELD)
          else if is_newline c then Ok (parse_save_field self EAT_CRNL)
          else Ok (parse_add_char self c IN_FIELD)
      end
  | EAT_CRNL =>
      match c with
      | None => Ok (set_state self START_RECORD)
      | Some c => if is_newline c then Ok self else Raise csv_Error
      end
  end.

(** The characters of one line. *)
Fixpoint parse_line (self : ReaderObj) (line : string) : result ReaderObj :=
  match line with
  | EmptyString => Ok self
  | String c line' =>
      match parse_process_char self (Some c) with
      | Ok self' => parse_line self' line'
      | Raise e => Raise e
      end
  end.

(** The rows a reader yields over the lines of a file, and the exception
    that ends the iteration, if one does.  A record is complete when the
    end of a line leaves the parser in [START_RECORD]; at the end of the
    input, a record that was begun is yielded as it stands. *)
Fixpoint reader_from (self : ReaderObj) (lines : list string)
    : list (list string) * option exn :=
  match lines with
  | [] =>
      if negb (Py.is_empty (field self)) || bool_decide (state self = IN_QUOTED_FIELD)
      then ([fields (parse_save_field self START_RECORD)], None)
      else ([], None)
  | line :: lines' =>
      match parse_line self line with
      | Raise e => ([], Some e)
      | Ok self' =>
          match parse_process_char self' None with
          | Raise e => ([], Some e)
          | Ok self'' =>
              if decide (state self'' = START_RECORD)
              then let (rows, e) := reader_from parse_reset lines' in
                   (fields self'' :: rows, e)
              else reader_from self'' lines'
          end
      end
  end.

Definition reader (lines : list string) : list (list string) * option exn :=
  reader_from parse_reset lines.

(** A row of a [DictReader]: the cell under every field name, [None]
    ([restval]) where the row is short.  The cells of a long row beyond
    the field names go under the key [None] ([restkey]), which no str key
    reaches, and are left out. *)
Definition make_dict (fieldnames row : list string) : gmap string (option string) :=
  let d := foldl (λ d kv, <[kv.1 := Some kv.2]> d) ∅ (zip fieldnames row) in
  foldl (λ d key, <[key := None]> d) d (drop (length row) fieldnames).

(** [DictReader]: the first row gives the field names, and every later row
    that is not blank gives a dict. *)
Definition DictReader (lines : list string)
    : list (gmap string (option string)) * option exn :=
  let (rows, e) := reader lines in
  match rows with
  | [] => ([], e)
  | fieldnames :: rows' =>
      (make_dict fieldnames <$> filter (λ row, row ≠ []) rows', e)
  end.

End csv.

(** ** Files *)

Module File.

(** Universal newlines, as a file opened for reading without [newline='']
    translates its text: [\r\n] and [\r] become [\n].  As in the
    incremental decoder, [pendingcr] tells that the character before was a
    [\r], already translated. *)
Fixpoint translate (pendingcr : bool) (s : string) : string :=
  match s with
  | EmptyString => EmptyString
  | String c s' =>
      if Ascii.eqb c CR then String LF (translate true s')
      else if Ascii.eqb c LF then
        if pendingcr then translate false s' else String LF (translate false s')
      else String c (translate false s')
  end.

Definition universal_newlines (s : string) : string := translate false s.

(** Iterating a text file: its lines, each with its [\n]; [line] is the
    part of the current line read so far. *)
Fixpoint lines_from (line : string) (s : string) : list string :=
  match s with
  | EmptyString => if Py.is_empty line then [] else [line]
  | String c s' =>
      if Ascii.eqb c LF then (line +:+ String c EmptyString) :: lines_from EmptyString s'
      else lines_from (line +:+ String c EmptyString) s'
  end.

Definition readlines (s : string) : list string := lines_from EmptyString s.

(** [open(filename, 'r', encoding='utf-8')] and the iteration of the file. *)
Definition open_r (filename : string) : M (result (list string)) :=
  λ w, (match files w !! filename with
        | None => Raise FileNotFoundError
        | Some content => Ok (readlines (universal_newlines content))
        end, w).

(** [open(filename, 'w', encoding='utf-8', newline='')] creates the file
    or empties it. *)
Definition open_w (filename : string) : M unit :=
  λ w, (tt, World (heap w) (<[filename := EmptyString]> (files w)) (stdout w)).

(** [file.write(text)], with no translation of newlines. *)
Definition write (filename : string) (text : string) : M unit :=
  λ w, (tt, World (heap w)
                  (<[filename := default EmptyString (files w !! filename) +:+ text]> (files w))
                  (stdout w)).

End File.

(** ** MedicalRecordsCollection *)

Module MedicalRecordsCollection.

(** [self._records] *)
Definition _records (self : ref) : M (list record) :=
  λ w, (default [] (heap w !! self), w).

(** [self._records = l] *)
Definition set_records (self : ref) (l : list record) : M unit :=
  λ w, (tt, World (<[self := l]> (heap w)) (files w) (stdout w)).

(** [MedicalRecordsCollection()]: a new object with [_records = []]. *)
Definition init : M ref :=
  λ w, (length (heap w), World (heap w ++ [[]]) (files w) (stdout w)).

(** [list.__getitem__]: a negative index counts from the end. *)
Definition list_getitem {A} (l : list A) (index : Z) : result A :=
  let i := if index <? 0 then index + Z.of_nat (length l) else index in
  if i <? 0 then Raise IndexError
  else match l !! Z.to_nat i with
       | Some x => Ok x
       | None => Raise IndexError
       end.

Definition getitem (self : ref) (index : Z) : M (result record) :=
  l ← _records self; mret (list_getitem l index).

Definition len (self : ref) : M nat :=
  l ← _records self; mret (length l).

(** [self._records.append(record)] *)
Definition add (self : ref) (r : record) : M unit :=
  l ← _records self; set_records self (l ++ [r]).

Definition sort_by_patient_name (self : ref) : M ref :=
  sorted_collection ← init;
  l ← _records self;
  set_records sorted_collection (Py.sorted Rec.patient_name String.ltb l);;
  mret sorted_collection.

Definition sort_by_duration (self : ref) : M ref :=
  sorted_collection ← init;
  l ← _records self;
  set_records sorted_collection (Py.sorted Rec.duration Z.ltb l);;
  mret sorted_collection.

Definition filter_by_duration (self : ref) (min_duration : Z) : M ref :=
  filtered_collection ← init;
  l ← _records self;
  set_records filtered_collection
    (filter (λ r, min_duration < Rec.duration r) l);;
  mret filtered_collection.

(** A suspended generator of [get_emergency_records] or
    [get_records_by_doctor]: the collection it scans, the test of its [if],
    the position of the list iterator of its [for], and whether its body has
    returned. *)
Record generator := Generator {
  g_self : ref;
  g_test : record → bool;
  g_pos : nat;
  g_done : bool
}.

Definition get_emergency_records (self : ref) : generator :=
  Generator self is_emergency 0 false.

Definition get_records_by_doctor (self : ref) (doctor_name : string) : generator :=
  Generator self (λ r, bool_decide (Rec.doctor_name r = doctor_name)) 0 false.

(** The [for] loop from position [i] over what is left of the list: the
    first record that passes the test is yielded. *)
Fixpoint advance (test : record → bool) (rest : list record) (i : nat)
    : option record * nat :=
  match rest with
  | [] => (None, i)
  | r :: rest' => if test r then (Some r, S i) else advance test rest' (S i)
  end.

(** [next(g)]: [None] stands for [StopIteration].  A generator whose body
    has returned stays finished, whatever is added to the list later. *)
Definition next (g : generator) : M (option record * generator) :=
  if g_done g then mret (None, g)
  else
    l ← _records (g_self g);
    let (y, i) := advance (g_test g) (drop (g_pos g) l) (g_pos g) in
    mret (y, Generator (g_self g) (g_test g) i
                       (match y with None => true | Some _ => false end)).

(** [list(g)], by [next] until [StopIteration]; [fuel] bounds the number
    of calls. *)
Fixpoint drain (fuel : nat) (g : generator) : M (option (list record)) :=
  match fuel with
  | O => mret None
  | S fuel' =>
      yg ← next g;
      match yg.1 with
      | None => mret (Some [])
      | Some r =>
          rest ← drain fuel' yg.2;
          mret (cons r <$> rest)
      end
  end.

(** *** CSV persistence *)

(** [row[key]] *)
Definition row_getitem (row : gmap string (option string)) (key : string)
    : result (option string) :=
  match row !! key with
  | Some cell => Ok cell
  | None => Raise (KeyError key)
  end.

(** [int(cell)] for a cell of a row: [int(None)] is a [TypeError]. *)
Definition int_of_cell (cell : option string) : result Z :=
  match cell with
  | None => Raise TypeError
  | Some s =>
      match Py.int s with
      | Some n => Ok n
      | None => Raise (ValueError s)
      end
  end.

(** [int(row[key])] *)
Definition int_of_key (row : gmap string (option string)) (key : string)
    : result Z :=
  match row_getitem row key with
  | Ok cell => int_of_cell cell
  | Raise e => Raise e
  end.

(** [int(row.get('urgency', 0))]: without the key, [int(0)]. *)
Definition int_of_urgency (row : gmap string (option string)) : result Z :=
  match row !! "urgency" with
  | None => Ok 0
  | Some cell => int_of_cell cell
  end.

(** What the body of the loop of [load_from_csv] makes of a row.  A short
    row has [None] under the keys it does not reach; when that is a text
    column, the record built has [None] in a slot annotated [str], which
    the typed records here do not hold: [Untyped].  The module [Raw] below
    has the loader with the records as they are built then. *)
Inductive row_outcome :=
| Built (r : record)
| Raised (e : exn)
| Untyped.

Definition record_of_row (today : Py.date) (row : gmap string (option string))
    : row_outcome :=
  match int_of_key row "id" with
  | Raise e => Raised e
  | Ok id =>
  match int_of_key row "duration" with
  | Raise e => Raised e
  | Ok duration =>
  match int_of_urgency row with
  | Raise e => Raised e
  | Ok urgency =>
  match row_getitem row "patient_name" with
  | Raise e => Raised e
  | Ok patient_name =>
  match row_getitem row "doctor_name" with
  | Raise e => Raised e
  | Ok doctor_name =>
  match row_getitem row "reason" with
  | Raise e => Raised e
  | Ok reason =>
      let date := mjoin (row !! "date") in
      match patient_name, doctor_name, reason with
      | Some patient_name, Some doctor_name, Some reason =>
          if 0 <? urgency
          then Built (EmergencyRecord_init today id patient_name doctor_name
                        reason duration urgency date)
          else Built (MedicalRecord_init today id patient_name doctor_name
                        reason duration date)
      | _, _, _ => Untyped
      end
  end end end end end end.

(** How the [for] loop of [load_from_csv] ends. *)
Inductive loop_end :=
| Exhausted
| Aborted (e : exn)
| OutsideTypes.

(** [for row in reader: ...; collection.add(record)] *)
Fixpoint load_rows (today : Py.date) (collection : ref)
    (rows : list (gmap string (option string))) : M loop_end :=
  match rows with
  | [] => mret Exhausted
  | row :: rows' =>
      match record_of_row today row with
      | Built r => add collection r;; load_rows today collection rows'
      | Raised e => mret (Aborted e)
      | Untyped => mret OutsideTypes
      end
  end.

Definition load_error : string := "Ошибка при загрузке файла: ".

(** [load_from_csv(filename)] into the store of typed records; [today] is
    the day the clock gives.  The result is [None] when a record outside the
    typed records is built: what the program does then is
    [Raw.load_from_csv]. *)
Definition load_from_csv (today : Py.date) (filename : string) : M (option ref) :=
  collection ← init;
  file ← File.open_r filename;
  match file with
  | Raise FileNotFoundError =>
      print (Print ("Файл " +:+ filename +:+ " не найден. Будет создан новый."));;
      mret (Some collection)
  | Raise e =>
      print (PrintExn load_error e);;
      mret (Some collection)
  | Ok lines =>
      let (rows, e) := csv.DictReader lines in
      ending ← load_rows today collection rows;
      match ending, e with
      | OutsideTypes, _ => mret None
      | Aborted e, _ | Exhausted, Some e =>
          print (PrintExn load_error e);;
          mret (Some collection)
      | Exhausted, None =>
          n ← len collection;
          print (Print ("Загружено " +:+ Py.str (Z.of_nat n) +:+ " записей из "
                        +:+ filename));;
          mret (Some collection)
      end
  end.

Definition fieldnames : list string :=
  ["id"; "patient_name"; "doctor_name"; "reason"; "duration"; "date"; "urgency"].

(** The dict [row] that [save_to_csv] builds of a record. *)
Definition row_of_record (r : record) : gmap string csv.value :=
  <["id" := csv.VInt (Rec.id r)]>
  (<["patient_name" := csv.VStr (Rec.patient_name r)]>
  (<["doctor_name" := csv.VStr (Rec.doctor_name r)]>
  (<["reason" := csv.VStr (Rec.reason r)]>
  (<["duration" := csv.VInt (Rec.duration r)]>
  (<["date" := csv.VStr (Rec.date r)]>
  (<["urgency" := csv.VInt (getattr_urgency r 0)]> ∅)))))).

(** [for record in collection: ...; writer.writerow(row)] *)
Fixpoint save_rows (filename : string) (records : list record) : M (result unit) :=
  match records with
  | [] => mret (Ok tt)
  | r :: records' =>
      match csv.DictWriter_writerow fieldnames (row_of_record r) with
      | Ok text => File.write filename text;; save_rows filename records'
      | Raise e => mret (Raise e)
      end
  end.

(** [save_to_csv(collection, filename)]; [not collection] is
    [len(collection) == 0]. *)
Definition save_to_csv (collection : ref) (filename : string) : M unit :=
  n ← len collection;
  if decide (n = 0%nat) then print (Print "Нет данных для сохранения!")
  else
    File.open_w filename;;
    File.write filename (csv.DictWriter_writeheader fieldnames);;
    records ← _records collection;
    written ← save_rows filename records;
    match written with
    | Ok _ =>
        n ← len collection;
        print (Print ("Сохранено " +:+ Py.str (Z.of_nat n) +:+ " записей в "
                      +:+ filename))
    | Raise e => print (PrintExn "Ошибка при сохранении файла: " e)
    end.

(** *** Display *)

(** [MedicalRecordsCollection.__repr__] *)
Definition repr (self : ref) : M string :=
  n ← len self;
  mret ("MedicalRecordsCollection(" +:+ Py.str (Z.of_nat n) +:+ " records)").

(** ["=" * n] *)
Fixpoint rule (n : nat) : string :=
  match n with
  | O => EmptyString
  | S n' => String "=" (rule n')
  end.

(** The heading of the table of [print_all]. *)
Definition table_heading : string :=
  Py.ljust 3 "ID" +:+ " | " +:+ Py.ljust 20 "Пациент" +:+ " | " +:+
  Py.ljust 15 "Врач" +:+ " | " +:+ Py.ljust 20 "Причина" +:+ " | " +:+
  Py.ljust 5 "Длит." +:+ " | " +:+ Py.ljust 10 "Дата" +:+ " | " +:+
  Py.ljust 10 "Срочность".

(** [for record in self._records: print(record)] *)
Fixpoint print_records (records : list record) : M unit :=
  match records with
  | [] => mret tt
  | r :: records' => print (Print (record_str r));; print_records records'
  end.

Definition print_all (self : ref) : M unit :=
  l ← _records self;
  if bool_decide (l = []) then print (Print "Нет данных для отображения")
  else
    print (Print (String LF (rule 120)));;
    print (Print table_heading);;
    print (Print (rule 120));;
    print_records l;;
    print (Print (rule 120)).

End MedicalRecordsCollection.

(** ** Loading, with the records as the rows give them

    The constructors store what they are given.  [load_from_csv] gives them
    the cells of a row, and the cell of a key that a short row does not reach
    is [None]: [int(None)] raises, but a [None] under [patient_name],
    [doctor_name] or [reason] is stored in the slot.  Here the text slots
    hold a str or [None], and [load_from_csv] is the loader on every file.
    The collection it makes is new and known to the loader alone until it is
    returned: it is given by its records, and the store of typed records is
    left as it is. *)

Module Raw.

Record slots := Slots {
  _id : Z;
  _patient_name : option string;
  _doctor_name : option string;
  _reason : option string;
  _duration : Z;
  _date : string
}.

Inductive record :=
| MedicalRecord (s : slots)
| EmergencyRecord (s : slots) (_urgency : Z).

Definition base (r : record) : slots :=
  match r with
  | MedicalRecord s => s
  | EmergencyRecord s _ => s
  end.

(** [MedicalRecord.__init__] *)
Definition MedicalRecord_init (today : Py.date)
    (id : Z) (patient_name doctor_name reason : option string) (duration : Z)
    (date : option string) : record :=
  MedicalRecord (Slots id patient_name doctor_name reason duration
                       (date_or_today today date)).

(** [EmergencyRecord.__init__] *)
Definition EmergencyRecord_init (today : Py.date)
    (id : Z) (patient_name doctor_name reason : option string) (duration : Z)
    (urgency : Z) (date : option string) : record :=
  EmergencyRecord (Slots id patient_name doctor_name reason duration
                         (date_or_today today date)) urgency.

(** The body of the loop of [load_from_csv]: the record built of a row, or
    the exception raised. *)
Definition record_of_row (today : Py.date) (row : gmap string (option string))
    : result record :=
  match MedicalRecordsCollection.int_of_key row "id" with
  | Raise e => Raise e
  | Ok id =>
  match MedicalRecordsCollection.int_of_key row "duration" with
  | Raise e => Raise e
  | Ok duration =>
  match MedicalRecordsCollection.int_of_urgency row with
  | Raise e => Raise e
  | Ok urgency =>
  match MedicalRecordsCollection.row_getitem row "patient_name" with
  | Raise e => Raise e
  | Ok patient_name =>
  match MedicalRecordsCollection.row_getitem row "doctor_name" with
  | Raise e => Raise e
  | Ok doctor_name =>
  match MedicalRecordsCollection.row_getitem row "reason" with
  | Raise e => Raise e
  | Ok reason =>
      let date := mjoin (row !! "date") in
      if 0 <? urgency
      then Ok (EmergencyRecord_init today id patient_name doctor_name
                 reason duration urgency date)
      else Ok (MedicalRecord_init today id patient_name doctor_name
                 reason duration date)
  end end end end end end.

(** [for row in reader: ...; collection.add(record)]: [records] are the
    records of the collection so far; the loop ends with the rows or with
    the first exception. *)
Fixpoint load_rows (today : Py.date) (records : list record)
    (rows : list (gmap string (option string))) : list record * option exn :=
  match rows with
  | [] => (records, None)
  | row :: rows' =>
      match record_of_row today row with
      | Ok r => load_rows today (records ++ [r]) rows'
      | Raise e => (records, Some e)
      end
  end.

(** [load_from_csv(filename)]: the records of the collection returned. *)
Definition load_from_csv (today : Py.date) (filename : string) : M (list record) :=
  file ← File.open_r filename;
  match file with
  | Raise FileNotFoundError =>
      print (Print ("Файл " +:+ filename +:+ " не найден. Будет создан новый."));;
      mret []
  | Raise e =>
      print (PrintExn MedicalRecordsCollection.load_error e);;
      mret []
  | Ok lines =>
      let (rows, e) := csv.DictReader lines in
      let (records, raised) := load_rows today [] rows in
      match raised, e with
      | Some e, _ | None, Some e =>
          print (PrintExn MedicalRecordsCollection.load_error e);;
          mret records
      | None, None =>
          print (Print ("Загружено " +:+ Py.str (Z.of_nat (length records))
                        +:+ " записей из " +:+ filename));;
          mret records
      end
  end.

End Raw.

(** A record that holds values of the annotated types, among the records as
    the loader builds them. *)
Definition untyped_slots (s : slots) : Raw.slots :=
  Raw.Slots (_id s) (Some (_patient_name s)) (Some (_doctor_name s))
            (Some (_reason s)) (_duration s) (_date s).

Definition untyped (r : record) : Raw.record :=
  match r with
  | MedicalRecord s => Raw.MedicalRecord (untyped_slots s)
  | EmergencyRecord s u => Raw.EmergencyRecord (untyped_slots s) u
  end.

(** ** The menu *)

Module Main.

(** The id that option 6 of the menu gives to a new record:
    [max(r.id for r in collection) + 1 if collection else 1]. *)
Definition next_id (records : list record) : Z :=
  match records with
  | [] => 1
  | r :: records' => foldl Z.max (Rec.id r) (Rec.id <$> records') + 1
  end.

End Main.

(** * Specifications *)

(** ** What the operations are checked against *)

(** [l] is the stable sort of [l0] by [key]: a permutation of [l0], ordered
    by [le] on the keys, in which the records of every key stand in the order
    they have in [l0]. *)
Definition stable_sort_of {K : Type} `{EqDecision K} (key : record → K)
    (le : K → K → Prop) (l l0 : list record) : Prop :=
  l ≡ₚ l0 ∧
  StronglySorted (λ a b, le (key a) (key b)) l ∧
  ∀ k, filter (λ r, key r = k) l = filter (λ r, key r = k) l0.

(** A method that answers with the new collection [new] and leaves the world
    [w'] has changed nothing of the world [w] it was called in: the objects
    of [w] hold what they held, and files and console are as they were. *)
Definition only_allocates (w w' : world) (new : ref) : Prop :=
  new = length (heap w) ∧
  (∀ c l, heap w !! c = Some l → heap w' !! c = Some l) ∧
  files w' = files w ∧
  stdout w' = stdout w.

(** The label of an urgency level, as the data model words it. *)
Definition urgency_label (urgency : Z) : string :=
  if decide (urgency = 1) then "критическая"
  else if decide (urgency = 2) then "высокая"
  else if decide (urgency = 3) then "средняя"
  else "неизвестная".

(** The text has no carriage return. *)
Fixpoint no_cr (s : string) : bool :=
  match s with
  | EmptyString => true
  | String c s' => negb (Ascii.eqb c CR) && no_cr s'
  end.

(** The text is made of decimal digits. *)
Definition is_digit (c : ascii) : bool :=
  let n := N_of_ascii c in ((48 <=? n) && (n <=? 57))%N.

Fixpoint all_digits (s : string) : bool :=
  match s with
  | EmptyString => true
  | String c s' => is_digit c && all_digits s'
  end.

(** What [load_from_csv] builds of the row that [save_to_csv] wrote of a
    record: the texts with their newlines translated, and the class decided
    by the urgency written. *)
Definition reload_slots (today : Py.date) (s : slots) : slots :=
  Slots (_id s)
        (File.universal_newlines (_patient_name s))
        (File.universal_newlines (_doctor_name s))
        (File.universal_newlines (_reason s))
        (_duration s)
        (date_or_today today (Some (File.universal_newlines (_date s)))).

Definition reload (today : Py.date) (r : record) : record :=
  if 0 <? getattr_urgency r 0
  then EmergencyRecord (reload_slots today (base r)) (getattr_urgency r 0)
  else MedicalRecord (reload_slots today (base r)).

(** A record that a round trip through a file gives back as it is: its
    texts have no carriage return, its date is not empty (as with every
    record the constructors build) and, if it is an emergency record, its
    urgency is at least 1. *)
Definition survives (r : record) : Prop :=
  no_cr (Rec.patient_name r) = true ∧
  no_cr (Rec.doctor_name r) = true ∧
  no_cr (Rec.reason r) = true ∧
  no_cr (Rec.date r) = true ∧
  Py.truthy (Rec.date r) = true ∧
  (is_emergency r = true → 1 ≤ getattr_urgency r 0).

(** The reader over the text of a file rather than over its lines: the
    characters are parsed one by one, and the end-of-line mark is given
    behind every [\n] and at the end of a text that does not end in one.
    [self] is the parser after the characters read so far, and [pending]
    tells that the current line has characters. *)
Module Flat.

Definition cons_row (row : list string) (x : list (list string) * option exn)
    : list (list string) * option exn :=
  (row :: x.1, x.2).

Definition at_eof (self : csv.ReaderObj) : list (list string) * option exn :=
  if negb (Py.is_empty (csv.field self))
     || bool_decide (csv.state self = csv.IN_QUOTED_FIELD)
  then ([csv.fields (csv.parse_save_field self csv.START_RECORD)], None)
  else ([], None).

Definition at_eol (self : csv.ReaderObj)
    (rest : csv.ReaderObj → list (list string) * option exn)
    : list (list string) * option exn :=
  match csv.parse_process_char self None with
  | Raise e => ([], Some e)
  | Ok self' =>
      if decide (csv.state self' = csv.START_RECORD)
      then cons_row (csv.fields self') (rest csv.parse_reset)
      else rest self'
  end.

Fixpoint reader (self : csv.ReaderObj) (pending : bool) (s : string)
    : list (list string) * option exn :=
  match s with
  | EmptyString => if pending then at_eol self at_eof else at_eof self
  | String c s' =>
      match csv.parse_process_char self (Some c) with
      | Raise e => ([], Some e)
      | Ok self' =>
          if Ascii.eqb c LF then at_eol self' (λ self'', reader self'' false s')
          else reader self' true s'
      end
  end.

End Flat.

(** The text of a field in the file, as it is read. *)
Definition tfield (f : string) : string :=
  File.translate false (csv.join_append f).

(** The text that [writerow] writes of each of the rows, one after the
    other. *)
Definition written (rows : list (list csv.value)) : string :=
  foldr (λ row text, csv.writerow row +:+ text) EmptyString rows.

(** The cell a reader gives back for a value written. *)
Definition read_back (v : csv.value) : string :=
  File.universal_newlines (csv.field_text v).

(** The values [save_to_csv] writes of a record, in the order of the
    columns. *)
Definition record_values (r : record) : list csv.value :=
  [csv.VInt (Rec.id r); csv.VStr (Rec.patient_name r);
   csv.VStr (Rec.doctor_name r); csv.VStr (Rec.reason r);
   csv.VInt (Rec.duration r); csv.VStr (Rec.date r);
   csv.VInt (getattr_urgency r 0)].

(** The text of the file that [save_to_csv] writes of the records. *)
Definition saved_text (records : list record) : string :=
  written ((csv.VStr <$> MedicalRecordsCollection.fieldnames)
           :: (record_values <$> records)).

(** The records that the loop of [load_from_csv] adds for the rows, and how
    the loop ends: with the first row that does not give a record. *)
Fixpoint loaded (today : Py.date) (rows : list (gmap string (option string)))
    : list record * MedicalRecordsCollection.loop_end :=
  match rows with
  | [] => ([], MedicalRecordsCollection.Exhausted)
  | row :: rows' =>
      match MedicalRecordsCollection.record_of_row today row with
      | MedicalRecordsCollection.Built r =>
          let (records, ending) := loaded today rows' in (r :: records, ending)
      | MedicalRecordsCollection.Raised e => ([], MedicalRecordsCollection.Aborted e)
      | MedicalRecordsCollection.Untyped => ([], MedicalRecordsCollection.OutsideTypes)
      end
  end.

(** ** A small world to run the operations in *)

Module Example.

Definition today : Py.date := Py.Date 2024 5 17.

Definition visit : record :=
  MedicalRecord_init today 1 "Smirnov" "Petrova" "checkup" 15 (Some "2024-05-01").

Definition emergency : record :=
  EmergencyRecord_init today 2 "Orlova" "Petrova" "chest pain" 30 1 None.

(** One collection, holding [visit] and [emergency]; no files. *)
Definition w0 : world := World [[visit; emergency]] ∅ [].

(** An emergency record of urgency 0, and a collection of it. *)
Definition unranked : record :=
  EmergencyRecord_init today 3 "Volkov" "Petrova" "fall" 5 0 (Some "2024-05-02").

Definition w_unranked : world := World [[visit; unranked]] ∅ [].

(** A visit whose reason has a carriage return, as a line read from a
    console fed with [\r\n] line ends has one. *)
Definition dictated : record :=
  MedicalRecord_init today 4 "Belov" "Petrova" (String "f" (String "l" (String "u" (String CR EmptyString))))
    10 (Some "2024-05-03").

Definition w_dictated : world := World [[dictated]] ∅ [].

(** A file whose second row has an id that is no integer. *)
Definition header : string :=
  "id,patient_name,doctor_name,reason,duration,date,urgency".

Definition broken : string :=
  header +:+ String LF
    ("1,Smirnov,Petrova,checkup,15,2024-05-01,0" +:+ String LF
    ("x,Orlova,Petrova,chest pain,30,2024-05-17,1" +:+ String LF
    ("5,Belov,Petrova,flu,10,2024-05-03,0" +:+ String LF EmptyString))).

Definition w_broken : world := World [] {["data.csv" := broken]} [].

(** The rows that a [DictReader] makes of [broken]. *)
Definition row (cells : list string) : gmap string (option string) :=
  csv.make_dict MedicalRecordsCollection.fieldnames cells.

Definition first_row : gmap string (option string) :=
  row ["1"; "Smirnov"; "Petrova"; "checkup"; "15"; "2024-05-01"; "0"].

Definition second_row : gmap string (option string) :=
  row ["x"; "Orlova"; "Petrova"; "chest pain"; "30"; "2024-05-17"; "1"].

Definition third_row : gmap string (option string) :=
  row ["5"; "Belov"; "Petrova"; "flu"; "10"; "2024-05-03"; "0"].

(** A file that holds the header and a blank line. *)
Definition blank : string := header +:+ String LF (String LF EmptyString).

Definition w_blank : world := World [] {["data.csv" := blank]} [].

End Example.

(** A row is malformed when the cell of an integer column is no integer
    literal or is not there, or when a column the loop indexes is not in the
    header. *)
Definition malformed (row : gmap string (option string)) : Prop :=
  (∃ key, key ∈ ["id"; "duration"; "urgency"] ∧
          (row !! key = Some None ∨
           ∃ s, row !! key = Some (Some s) ∧ Py.int s = None)) ∨
  (∃ key, key ∈ ["id"; "duration"; "patient_name"; "doctor_name"; "reason"] ∧
          row !! key = None).

(** The parser holds no carriage return: neither in the fields read nor in
    the field being read. *)
Definition clean (self : csv.ReaderObj) : Prop :=
  Forall (λ f, no_cr f = true) (csv.fields self) ∧ no_cr (csv.field self) = true.

(** * Proofs *)

(** ** Lists *)

Lemma filter_none {A} (P : A → Prop) `{∀ x, Decision (P x)} (l : list A) :
  Forall (λ x, ¬ P x) l → filter P l = [].
Proof.
  induction 1 as [|x l Hx _ IH]; [done|].
  by rewrite filter_cons_False.
Qed.

Lemma filter_all {A} (P : A → Prop) `{∀ x, Decision (P x)} (l : list A) :
  Forall P l → filter P l = l.
Proof.
  induction 1 as [|x l Hx _ IH]; [done|].
  by rewrite filter_cons_True, IH.
Qed.

Lemma StronglySorted_mono {A} (R1 R2 : A → A → Prop) (l : list A) :
  (∀ a b, R1 a b → R2 a b) → StronglySorted R1 l → StronglySorted R2 l.
Proof.
  intros HR. induction 1 as [|x l _ IH Hx]; constructor; [done|].
  eapply Forall_impl; [exact Hx|]. intros y. apply HR.
Qed.

(** ** [sorted] is a stable sort *)

Section sorted_spec.
Context {A K : Type} `{EqDecision K} (key : A → K) (lt : K → K → bool).
Hypothesis lt_irrefl : ∀ k, lt k k = false.
Hypothesis lt_trans : ∀ a b c, lt a b = true → lt b c = true → lt a c = true.

(** [a] may stand before [b]. *)
Let R (a b : A) : Prop := lt (key b) (key a) = false.

Lemma lt_asym a b : lt a b = true → lt b a = false.
Proof.
  intros Hab. destruct (lt b a) eqn:Hba; [|done].
  by rewrite <- (lt_irrefl a), (lt_trans a b a).
Qed.

Lemma insort_perm x l : Py.insort key lt x l ≡ₚ x :: l.
Proof.
  induction l as [|y l IH]; simpl; [done|].
  destruct (lt (key x) (key y)); [done|].
  rewrite IH. apply Permutation_swap.
Qed.

Lemma sorted_snoc l x :
  Py.sorted key lt (l ++ [x]) = Py.insort key lt x (Py.sorted key lt l).
Proof. unfold Py.sorted. by rewrite foldl_app. Qed.

Lemma sorted_perm l : Py.sorted key lt l ≡ₚ l.
Proof.
  induction l as [|x l IH] using rev_ind; [done|].
  rewrite sorted_snoc, insort_perm, IH.
  by rewrite Permutation_app_comm.
Qed.

Lemma insort_sorted x l :
  StronglySorted R l → StronglySorted R (Py.insort key lt x l).
Proof.
  induction 1 as [|y l Hl IH Hy]; simpl.
  { repeat constructor. }
  destruct (lt (key x) (key y)) eqn:Hxy.
  - constructor; [by constructor|].
    constructor; [by apply lt_asym|].
    eapply Forall_impl; [exact Hy|]. intros z Hz. unfold R in *.
    destruct (lt (key z) (key x)) eqn:Hzx; [|done].
    by rewrite <- Hz, (lt_trans _ _ _ Hzx Hxy).
  - constructor; [done|].
    rewrite insort_perm. by constructor.
Qed.

Lemma sorted_sorted l : StronglySorted R (Py.sorted key lt l).
Proof.
  induction l as [|x l IH] using rev_ind; [constructor|].
  rewrite sorted_snoc. by apply insort_sorted.
Qed.

Lemma insort_stable k x l :
  StronglySorted R l →
  filter (λ a, key a = k) (Py.insort key lt x l) =
  filter (λ a, key a = k) l ++ filter (λ a, key a = k) [x].
Proof.
  induction 1 as [|y l Hl IH Hy]; simpl; [done|].
  destruct (lt (key x) (key y)) eqn:Hxy.
  - rewrite (filter_cons _ x), (filter_cons _ x [] ), filter_nil.
    case_decide as Hk; [|by rewrite app_nil_r].
    assert (filter (λ a, key a = k) (y :: l) = []) as ->; [|done].
    apply filter_none. constructor.
    + intros Hy'. rewrite Hk, <- Hy', lt_irrefl in Hxy. done.
    + eapply Forall_impl; [exact Hy|]. intros z Hz Hz'. unfold R in Hz.
      rewrite Hz', <- Hk in Hz. congruence.
  - rewrite !(filter_cons _ y). case_decide; simpl; by rewrite IH.
Qed.

Lemma sorted_stable k l :
  filter (λ a, key a = k) (Py.sorted key lt l) = filter (λ a, key a = k) l.
Proof.
  induction l as [|x l IH] using rev_ind; [done|].
  rewrite sorted_snoc, insort_stable, filter_app, IH by apply sorted_sorted.
  done.
Qed.

End sorted_spec.

(** ** The order of the keys *)

Lemma string_compare_refl s : String.compare s s = Eq.
Proof.
  pose proof (String.compare_antisym s s) as H.
  destruct (String.compare s s); done.
Qed.

Lemma string_ltb_irrefl s : String.ltb s s = false.
Proof. unfold String.ltb. by rewrite string_compare_refl. Qed.

Lemma string_ltb_leb a b : String.ltb b a = false ↔ String.le a b.
Proof.
  unfold String.le, String.ltb, String.leb.
  rewrite (String.compare_antisym b a).
  destruct (String.compare a b); simpl; split; done.
Qed.

Lemma string_ltb_trans a b c :
  String.ltb a b = true → String.ltb b c = true → String.ltb a c = true.
Proof.
  intros Hab Hbc.
  assert (String.le a c) as Hac.
  { trans b; apply string_ltb_leb.
    - unfold String.ltb in *. rewrite (String.compare_antisym b a).
      by destruct (String.compare a b).
    - unfold String.ltb in *. rewrite (String.compare_antisym c b).
      by destruct (String.compare b c). }
  unfold String.le, String.leb, String.ltb in *.
  destruct (String.compare a c) eqn:Hc; [|done..].
  apply String.compare_eq_iff in Hc as ->.
  rewrite (String.compare_antisym c b) in Hab.
  by destruct (String.compare b c).
Qed.

(** ** The object store *)

(** Unfolds the monad and the primitive operations on the world. *)
Ltac run_M :=
  cbv beta iota delta
    [mbind M_bind mret M_ret print
     MedicalRecordsCollection.next MedicalRecordsCollection._records
     MedicalRecordsCollection.set_records MedicalRecordsCollection.init
     MedicalRecordsCollection.len MedicalRecordsCollection.add
     MedicalRecordsCollection.getitem
     File.open_r File.open_w File.write];
  simpl.

Lemma insert_snoc {A} (h : list A) (x y : A) : <[length h := y]> (h ++ [x]) = h ++ [y].
Proof. by rewrite insert_app_r_alt, Nat.sub_diag. Qed.

Lemma lookup_snoc {A} (h : list A) (x : A) : (h ++ [x]) !! length h = Some x.
Proof. by rewrite lookup_app_r, Nat.sub_diag. Qed.

Lemma lookup_fresh {A} (h : list A) (c : nat) (x : A) :
  h !! c = Some x → c ≠ length h.
Proof. intros Hc%lookup_lt_Some. lia. Qed.

(** A method that builds a new collection out of the records of [self]. *)
Lemma derive_spec (f : list record → list record) w self recs :
  heap w !! self = Some recs →
  (c ← MedicalRecordsCollection.init;
   l ← MedicalRecordsCollection._records self;
   MedicalRecordsCollection.set_records c (f l);;
   mret c) w
  = (length (heap w), World (heap w ++ [f recs]) (files w) (stdout w)).
Proof.
  intros Hself. run_M.
  rewrite (lookup_app_l_Some _ _ _ _ Hself); simpl.
  by rewrite insert_snoc.
Qed.

(** ** Generators *)

Lemma advance_spec test rest i :
  match MedicalRecordsCollection.advance test rest i with
  | (None, j) => filter (λ r, test r = true) rest = [] ∧ j = (i + length rest)%nat
  | (Some r, j) =>
      filter (λ r, test r = true) rest
        = r :: filter (λ r, test r = true) (drop (j - i) rest) ∧
      (i < j ≤ i + length rest)%nat
  end.
Proof.
  revert i. induction rest as [|r rest IH]; intros i; simpl.
  { split; [done|lia]. }
  destruct (test r) eqn:Hr.
  - rewrite filter_cons_True by done.
    replace (S i - i)%nat with 1%nat by lia. split; [done|lia].
  - rewrite filter_cons_False by congruence.
    specialize (IH (S i)).
    destruct (MedicalRecordsCollection.advance test rest (S i)) as [[r'|] j].
    + destruct IH as [-> Hj]. split; [|lia].
      by replace (j - i)%nat with (S (j - S i)) by lia.
    + destruct IH as [-> Hj]. split; [done|lia].
Qed.

Lemma drain_from fuel w self recs test pos :
  heap w !! self = Some recs →
  (length recs - pos < fuel)%nat →
  MedicalRecordsCollection.drain fuel
    (MedicalRecordsCollection.Generator self test pos false) w
  = (Some (filter (λ r, test r = true) (drop pos recs)), w).
Proof.
  intros Hself. revert pos.
  induction fuel as [|fuel IH]; intros pos Hfuel; [lia|].
  simpl. run_M. rewrite Hself; simpl.
  pose proof (advance_spec test (drop pos recs) pos) as Hadv.
  destruct (MedicalRecordsCollection.advance test (drop pos recs) pos)
    as [[r|] j]; simpl.
  - destruct Hadv as [-> Hj]. rewrite length_drop in Hj.
    rewrite drop_drop. replace (pos + (j - pos))%nat with j by lia.
    rewrite IH by lia. done.
  - destruct Hadv as [-> _]. done.
Qed.

(** ** Strings *)

Lemma append_nil_l (s : string) : EmptyString +:+ s = s.
Proof. reflexivity. Qed.

Lemma append_cons (c : ascii) (s1 s2 : string) :
  String c s1 +:+ s2 = String c (s1 +:+ s2).
Proof. reflexivity. Qed.

Lemma append_nil_r (s : string) : s +:+ EmptyString = s.
Proof. induction s as [|c s IH]; [done|]. by rewrite append_cons, IH. Qed.

Lemma append_assoc (s1 s2 s3 : string) : (s1 +:+ s2) +:+ s3 = s1 +:+ (s2 +:+ s3).
Proof. induction s1 as [|c s1 IH]; [done|]. by rewrite !append_cons, IH. Qed.

Lemma append_snoc (s1 s2 : string) (c : ascii) :
  (s1 +:+ String c EmptyString) +:+ s2 = s1 +:+ String c s2.
Proof. by rewrite append_assoc. Qed.

Lemma is_digit_cases (c : ascii) :
  is_digit c = true →
  c ∈ ["0"; "1"; "2"; "3"; "4"; "5"; "6"; "7"; "8"; "9"]%char.
Proof.
  destruct c as [[] [] [] [] [] [] [] []]; intros H; try discriminate H;
    set_solver.
Qed.

(** ** [int(str(n))] *)

Lemma string_of_uint_digits (d : Decimal.uint) :
  all_digits (NilEmpty.string_of_uint d) = true.
Proof. induction d as [|d IH|d IH|d IH|d IH|d IH|d IH|d IH|d IH|d IH|d IH]; simpl; done. Qed.

Lemma string_of_uint_nonempty (d : Decimal.uint) :
  d ≠ Decimal.Nil → Py.is_empty (NilEmpty.string_of_uint d) = false.
Proof. by destruct d. Qed.

Lemma digits_rstrip (s : string) : all_digits s = true → Py.rstrip s = s.
Proof.
  induction s as [|c s IH]; simpl; [done|].
  intros [Hc Hs]%andb_true_iff. rewrite IH by done.
  apply is_digit_cases in Hc. set_unfold. by destruct_or!; subst.
Qed.

Lemma digits_lstrip (s : string) : all_digits s = true → Py.lstrip s = s.
Proof.
  destruct s as [|c s]; simpl; [done|].
  intros [Hc Hs]%andb_true_iff.
  apply is_digit_cases in Hc. set_unfold. by destruct_or!; subst.
Qed.

Lemma digits_remove_underscores (s : string) :
  all_digits s = true → Py.remove_underscores s = s.
Proof.
  induction s as [|c s IH]; simpl; [done|].
  intros [Hc Hs]%andb_true_iff. rewrite IH by done.
  apply is_digit_cases in Hc. set_unfold. by destruct_or!; subst.
Qed.

Lemma digits_underscores_ok (s : string) :
  all_digits s = true → Py.underscores_ok true s = true.
Proof.
  induction s as [|c s IH]; simpl; [done|].
  intros [Hc Hs]%andb_true_iff.
  apply is_digit_cases in Hc. set_unfold. by destruct_or!; subst; simpl; auto.
Qed.

Lemma digits_of_uint (d : Decimal.uint) :
  d ≠ Decimal.Nil →
  Py.digits (NilEmpty.string_of_uint d) = Some (Z.of_uint d).
Proof.
  intros Hd. unfold Py.digits.
  pose proof (string_of_uint_digits d) as Hdig.
  rewrite digits_remove_underscores by done.
  replace (NilZero.uint_of_string (NilEmpty.string_of_uint d)) with (Some d).
  2:{ symmetry. rewrite <- (NilZero.usu d Hd). by destruct d. }
  destruct (NilEmpty.string_of_uint d) as [|c s] eqn:Hs.
  { by destruct d. }
  simpl in *. apply andb_true_iff in Hdig as [Hc Hdig].
  rewrite (digits_underscores_ok s Hdig).
  apply is_digit_cases in Hc. set_unfold. by destruct_or!; subst.
Qed.

Lemma digits_ascii (s : string) : all_digits s = true → Py.is_ascii s = true.
Proof.
  induction s as [|c s IH]; simpl; [done|].
  intros [Hc Hs]%andb_true_iff. rewrite IH by done.
  apply is_digit_cases in Hc. set_unfold. by destruct_or!; subst.
Qed.

(** [int] parses an ASCII text as it is. *)
Lemma int_ascii (s : string) :
  Py.is_ascii s = true → Py.int s = Py.long_from_string s.
Proof.
  intros Hs. unfold Py.int, Py.transform_decimal_and_space. by rewrite Hs.
Qed.

Lemma int_of_pos (p : positive) :
  Py.int (NilEmpty.string_of_uint (Pos.to_uint p)) = Some (Z.pos p).
Proof.
  pose proof (DecimalPos.Unsigned.to_uint_nonnil p) as Hnil.
  pose proof (digits_of_uint _ Hnil) as Hd.
  pose proof (string_of_uint_digits (Pos.to_uint p)) as Hdig.
  rewrite int_ascii by by apply digits_ascii.
  unfold Py.long_from_string, Py.strip.
  rewrite digits_lstrip, digits_rstrip by done.
  unfold Z.of_uint in Hd. rewrite DecimalPos.Unsigned.of_to in Hd.
  destruct (NilEmpty.string_of_uint (Pos.to_uint p)) as [|c s] eqn:Hs.
  { by destruct (Pos.to_uint p). }
  simpl in Hdig. apply andb_true_iff in Hdig as [Hc _].
  apply is_digit_cases in Hc. set_unfold. by destruct_or!; subst.
Qed.

Lemma int_str (n : Z) : Py.int (Py.str n) = Some n.
Proof.
  destruct n as [|p|p]; [done|..]; unfold Py.str; simpl.
  - pose proof (DecimalPos.Unsigned.to_uint_nonnil p).
    replace (NilZero.string_of_uint (Pos.to_uint p))
      with (NilEmpty.string_of_uint (Pos.to_uint p))
      by by destruct (Pos.to_uint p).
    apply int_of_pos.
  - pose proof (DecimalPos.Unsigned.to_uint_nonnil p) as Hnil.
    replace (NilZero.string_of_uint (Pos.to_uint p))
      with (NilEmpty.string_of_uint (Pos.to_uint p))
      by by destruct (Pos.to_uint p).
    pose proof (string_of_uint_digits (Pos.to_uint p)) as Hdig.
    rewrite int_ascii by (simpl; by apply digits_ascii).
    unfold Py.long_from_string, Py.strip. simpl.
    rewrite digits_rstrip by done.
    rewrite digits_of_uint by done. simpl.
    unfold Z.of_uint. by rewrite DecimalPos.Unsigned.of_to.
Qed.

(** [str(n)] is a minus sign or nothing, and digits. *)
Lemma str_shape (n : Z) :
  ∃ s, all_digits s = true ∧
       (Py.str n = s ∨ Py.str n = String "-" s).
Proof.
  destruct n as [|p|p]; unfold Py.str; simpl.
  - exists "0". by split; [|left].
  - exists (NilEmpty.string_of_uint (Pos.to_uint p)).
    split; [apply string_of_uint_digits|left].
    pose proof (DecimalPos.Unsigned.to_uint_nonnil p). by destruct (Pos.to_uint p).
  - exists (NilEmpty.string_of_uint (Pos.to_uint p)).
    split; [apply string_of_uint_digits|right].
    pose proof (DecimalPos.Unsigned.to_uint_nonnil p). by destruct (Pos.to_uint p).
Qed.

(** ** The reader, line by line and character by character *)

Lemma parse_line_app self a b :
  csv.parse_line self (a +:+ b) =
  match csv.parse_line self a with
  | Ok self' => csv.parse_line self' b
  | Raise e => Raise e
  end.
Proof.
  revert self. induction a as [|c a IH]; intros self; [done|].
  rewrite append_cons. simpl.
  destruct (csv.parse_process_char self (Some c)); [apply IH|done].
Qed.

Lemma lines_from_head line s :
  Py.is_empty line = false →
  ∃ t rest, File.lines_from line s = (line +:+ t) :: rest.
Proof.
  revert line. induction s as [|c s IH]; intros line Hline; simpl.
  - rewrite Hline. exists EmptyString, []. by rewrite append_nil_r.
  - destruct (Ascii.eqb c LF).
    + by eexists _, _.
    + destruct (IH (line +:+ String c EmptyString)) as (t & rest & ->).
      { by destruct line. }
      exists (String c t), rest. by rewrite append_snoc.
Qed.

Lemma reader_from_raise self line t rest e :
  csv.parse_line self line = Raise e →
  csv.reader_from self ((line +:+ t) :: rest) = ([], Some e).
Proof. intros Hline. simpl. by rewrite parse_line_app, Hline. Qed.

Lemma reader_from_nil self : csv.reader_from self [] = Flat.at_eof self.
Proof. done. Qed.

Lemma reader_from_lines s self line cur :
  csv.parse_line self line = Ok cur →
  csv.reader_from self (File.lines_from line s)
  = Flat.reader cur (negb (Py.is_empty line)) s.
Proof.
  revert self line cur. induction s as [|c s IH]; intros self line cur Hline.
  - simpl File.lines_from. destruct (Py.is_empty line) eqn:Hempty.
    { destruct line; [|done]. simpl in Hline. by simplify_eq. }
    simpl csv.reader_from. rewrite Hline. simpl. unfold Flat.at_eol.
    destruct (csv.parse_process_char cur None) as [cur'|e]; [|done].
    by case_decide.
  - simpl Flat.reader. simpl File.lines_from.
    destruct (csv.parse_process_char cur (Some c)) as [cur'|e] eqn:Hc.
    + assert (csv.parse_line self (line +:+ String c EmptyString) = Ok cur') as Hline'.
      { by rewrite parse_line_app, Hline; simpl; rewrite Hc. }
      destruct (Ascii.eqb c LF).
      * simpl csv.reader_from. rewrite Hline'. unfold Flat.at_eol.
        destruct (csv.parse_process_char cur' None) as [cur''|e]; [|done].
        case_decide.
        -- rewrite (IH _ EmptyString csv.parse_reset) by done.
           by destruct (Flat.reader csv.parse_reset _ s).
        -- by rewrite (IH _ EmptyString cur'').
      * rewrite (IH _ _ cur') by done. by destruct line.
    + assert (csv.parse_line self (line +:+ String c EmptyString) = Raise e) as Hline'.
      { by rewrite parse_line_app, Hline; simpl; rewrite Hc. }
      destruct (Ascii.eqb c LF).
      * simpl csv.reader_from. by rewrite Hline'.
      * destruct (lines_from_head (line +:+ String c EmptyString) s)
          as (t & rest & ->); [by destruct line|].
        by apply reader_from_raise.
Qed.

(** Reading a file is reading its translated text character by character. *)
Lemma reader_readlines (s : string) :
  csv.reader (File.readlines s) = Flat.reader csv.parse_reset false s.
Proof. by apply (reader_from_lines s csv.parse_reset EmptyString). Qed.

(** ** Newline translation of the text that the writer produces *)

(** Case analysis on a character of the dialect. *)
Ltac char_cases c :=
  destruct (Ascii.eqb_spec c QUOTE) as [->|?];
  [|destruct (Ascii.eqb_spec c COMMA) as [->|?];
    [|destruct (Ascii.eqb_spec c CR) as [->|?];
      [|destruct (Ascii.eqb_spec c LF) as [->|?]]]].

Lemma translate_double_quotes b f :
  File.translate b (csv.double_quotes f) = csv.double_quotes (File.translate b f).
Proof.
  revert b. induction f as [|c f IH]; intros b; [done|].
  char_cases c; simpl.
  - by rewrite IH.
  - by rewrite IH.
  - by rewrite IH.
  - destruct b; simpl; by rewrite IH.
  - rewrite !(proj2 (Ascii.eqb_neq _ _)) by done. simpl.
    rewrite !(proj2 (Ascii.eqb_neq _ _)) by done. by rewrite IH.
Qed.

(** Before a character that is not a newline, the text is translated on its
    own. *)
Lemma translate_app_char b s c rest :
  csv.is_newline c = false →
  File.translate b (s +:+ String c rest)
  = File.translate b s +:+ String c (File.translate false rest).
Proof.
  intros Hc. apply orb_false_iff in Hc as [Hlf Hcr].
  revert b. induction s as [|x s IH]; intros b.
  - rewrite !append_nil_l. simpl. by rewrite Hcr, Hlf.
  - rewrite append_cons. simpl.
    destruct (Ascii.eqb x CR); [by rewrite IH|].
    destruct (Ascii.eqb x LF); [destruct b|]; by rewrite IH.
Qed.

(** Before the line terminator too, which becomes [\n]. *)
Lemma translate_app_crlf b s rest :
  File.translate b (s +:+ csv.lineterminator +:+ rest)
  = File.translate b s +:+ String LF (File.translate false rest).
Proof.
  revert b. induction s as [|x s IH]; intros b.
  - done.
  - rewrite append_cons. simpl.
    destruct (Ascii.eqb x CR); [by rewrite IH|].
    destruct (Ascii.eqb x LF); [destruct b|]; by rewrite IH.
Qed.

Lemma translate_plain b f : csv.has_special f = false → File.translate b f = f.
Proof.
  revert b. induction f as [|c f IH]; intros b; [done|].
  simpl. intros [Hc Hf]%orb_false_iff.
  unfold csv.special in Hc.
  apply orb_false_iff in Hc as [Hc Hlf].
  apply orb_false_iff in Hc as [Hc Hcr].
  by rewrite Hcr, Hlf, IH.
Qed.

Lemma tfield_quoted f :
  csv.has_special f = true →
  tfield f = String QUOTE (csv.double_quotes (File.universal_newlines f)
                           +:+ String QUOTE EmptyString).
Proof.
  intros Hf. unfold tfield, csv.join_append. rewrite Hf.
  simpl. f_equal. rewrite translate_app_char by done.
  by rewrite translate_double_quotes.
Qed.

Lemma tfield_plain f :
  csv.has_special f = false →
  tfield f = f ∧ File.universal_newlines f = f.
Proof.
  intros Hf. unfold tfield, csv.join_append, File.universal_newlines.
  by rewrite Hf, translate_plain.
Qed.

(** ** Reading what the writer wrote *)

(** Runs the parser over the characters that stand at the head of the text. *)
Ltac parse_step :=
  repeat (simpl;
          unfold csv.parse_process_char, csv.set_state, csv.parse_add_char,
            csv.parse_save_field, csv.parse_reset, Flat.at_eol, Flat.cons_row;
          simpl).

(** The content of a quoted field, up to the closing quote. *)
Lemma read_quoted g fs b p rest :
  Flat.reader (csv.Reader csv.IN_QUOTED_FIELD fs b) p
    (csv.double_quotes g +:+ String QUOTE rest)
  = Flat.reader (csv.Reader csv.QUOTE_IN_QUOTED_FIELD fs (b +:+ g)) true rest.
Proof.
  revert b p. induction g as [|c g IH]; intros b p.
  { by rewrite append_nil_l, append_nil_r. }
  char_cases c; simpl csv.double_quotes; rewrite ?append_cons.
  - simpl. unfold csv.parse_add_char. simpl.
    by rewrite IH, append_snoc.
  - simpl. unfold csv.parse_add_char. simpl.
    by rewrite IH, append_snoc.
  - simpl. unfold csv.parse_add_char. simpl.
    by rewrite IH, append_snoc.
  - simpl. unfold Flat.at_eol, csv.parse_add_char. simpl.
    by rewrite IH, append_snoc.
  - rewrite (proj2 (Ascii.eqb_neq c QUOTE)) by done. rewrite ?append_cons.
    simpl. unfold csv.parse_process_char. simpl.
    rewrite !(proj2 (Ascii.eqb_neq _ _)) by done.
    unfold csv.parse_add_char. simpl.
    by rewrite IH, append_snoc.
Qed.

(** A field without quotes, up to the character [x] behind it. *)
Lemma read_plain f fs b p x rest :
  csv.has_special f = false →
  Flat.reader (csv.Reader csv.IN_FIELD fs b) p (f +:+ String x rest)
  = Flat.reader (csv.Reader csv.IN_FIELD fs (b +:+ f)) true (String x rest).
Proof.
  revert b p. induction f as [|c f IH]; intros b p Hf.
  { by rewrite append_nil_l, append_nil_r. }
  simpl in Hf. apply orb_false_iff in Hf as [Hc Hf].
  unfold csv.special in Hc.
  apply orb_false_iff in Hc as [Hc Hlf].
  apply orb_false_iff in Hc as [Hc Hcr].
  apply orb_false_iff in Hc as [Hcomma Hquote].
  rewrite append_cons.
  simpl. unfold csv.parse_process_char. simpl.
  unfold csv.is_newline. rewrite Hlf, Hcr, Hcomma. simpl.
  unfold csv.parse_add_char. simpl.
  by rewrite IH, append_snoc.
Qed.

(** A field and the comma behind it. *)
Lemma read_field_comma f fs p rest :
  Flat.reader (csv.Reader csv.START_FIELD fs EmptyString) p
    (tfield f +:+ String COMMA rest)
  = Flat.reader (csv.Reader csv.START_FIELD
                   (fs ++ [File.universal_newlines f]) EmptyString) true rest.
Proof.
  destruct (csv.has_special f) eqn:Hf.
  - rewrite tfield_quoted by done. rewrite append_cons, append_snoc.
    parse_step. rewrite read_quoted, append_nil_l. by parse_step.
  - destruct (tfield_plain f Hf) as [-> ->].
    destruct f as [|c f]; [done|].
    simpl in Hf. apply orb_false_iff in Hf as [Hc Hf].
    unfold csv.special in Hc.
    apply orb_false_iff in Hc as [Hc Hlf].
    apply orb_false_iff in Hc as [Hc Hcr].
    apply orb_false_iff in Hc as [Hcomma Hquote].
    rewrite append_cons. simpl. unfold csv.parse_process_char. simpl.
    unfold csv.is_newline. rewrite Hlf, Hcr, Hcomma, Hquote. simpl.
    unfold csv.parse_add_char. simpl.
    rewrite read_plain, append_nil_l by done. parse_step.
    by rewrite ?Hf.
Qed.

(** The last field of a row and the newline behind it. *)
Lemma read_field_eol f fs p rest :
  Flat.reader (csv.Reader csv.START_FIELD fs EmptyString) p
    (tfield f +:+ String LF rest)
  = Flat.cons_row (fs ++ [File.universal_newlines f])
      (Flat.reader csv.parse_reset false rest).
Proof.
  destruct (csv.has_special f) eqn:Hf.
  - rewrite tfield_quoted by done. rewrite append_cons, append_snoc.
    parse_step. rewrite read_quoted, append_nil_l. by parse_step.
  - destruct (tfield_plain f Hf) as [-> ->].
    destruct f as [|c f]; [done|].
    simpl in Hf. apply orb_false_iff in Hf as [Hc Hf].
    unfold csv.special in Hc.
    apply orb_false_iff in Hc as [Hc Hlf].
    apply orb_false_iff in Hc as [Hc Hcr].
    apply orb_false_iff in Hc as [Hcomma Hquote].
    rewrite append_cons. simpl. unfold csv.parse_process_char. simpl.
    unfold csv.is_newline. rewrite Hlf, Hcr, Hcomma, Hquote. simpl.
    unfold csv.parse_add_char. simpl.
    rewrite read_plain, append_nil_l by done. parse_step.
    by rewrite ?Hf.
Qed.

(** ** Rows *)

Lemma translate_join texts :
  File.translate false (csv.join (csv.join_append <$> texts))
  = csv.join (tfield <$> texts).
Proof.
  induction texts as [|f [|f' texts] IH]; [done..|].
  change (csv.join (csv.join_append <$> f :: f' :: texts))
    with (csv.join_append f +:+ String COMMA (csv.join (csv.join_append <$> f' :: texts))).
  rewrite translate_app_char by done. by rewrite IH.
Qed.

Lemma tfield_head f :
  (f = EmptyString ∧ tfield f = EmptyString) ∨
  (∃ c s, tfield f = String c s ∧ csv.is_newline c = false).
Proof.
  destruct (csv.has_special f) eqn:Hf.
  - right. rewrite tfield_quoted by done. by eexists _, _.
  - destruct (tfield_plain f Hf) as [-> _].
    destruct f as [|c f]; [by left|right].
    exists c, f. split; [done|].
    simpl in Hf. apply orb_false_iff in Hf as [Hc _].
    unfold csv.special in Hc.
    apply orb_false_iff in Hc as [Hc Hlf].
    apply orb_false_iff in Hc as [_ Hcr].
    unfold csv.is_newline. by rewrite Hlf, Hcr.
Qed.

Lemma read_fields texts acc p rest :
  texts ≠ [] →
  Flat.reader (csv.Reader csv.START_FIELD acc EmptyString) p
    (csv.join (tfield <$> texts) +:+ String LF rest)
  = Flat.cons_row (acc ++ (File.universal_newlines <$> texts))
      (Flat.reader csv.parse_reset false rest).
Proof.
  intros Htexts. revert acc p.
  induction texts as [|f [|f' texts] IH]; intros acc p; [done|..].
  - apply read_field_eol.
  - change (csv.join (tfield <$> f :: f' :: texts))
      with (tfield f +:+ String COMMA (csv.join (tfield <$> f' :: texts))).
    rewrite append_assoc, append_cons, read_field_comma, IH by done.
    by rewrite <- app_assoc.
Qed.

(** Before a character that is not a newline, the start of a record is the
    start of a field. *)
Lemma start_record_field c s p :
  csv.is_newline c = false →
  Flat.reader csv.parse_reset p (String c s)
  = Flat.reader (csv.Reader csv.START_FIELD [] EmptyString) p (String c s).
Proof.
  intros Hc. simpl. unfold csv.parse_process_char. simpl. by rewrite Hc.
Qed.

Lemma read_row_text texts p rest :
  texts ≠ [] →
  texts ≠ [EmptyString] →
  Flat.reader csv.parse_reset p (csv.join (tfield <$> texts) +:+ String LF rest)
  = Flat.cons_row (File.universal_newlines <$> texts)
      (Flat.reader csv.parse_reset false rest).
Proof.
  intros Hnil Hone.
  assert (∃ c s, csv.join (tfield <$> texts) +:+ String LF rest = String c s ∧
                 csv.is_newline c = false) as (c & s & Heq & Hc).
  { destruct texts as [|f [|f' texts]]; [done|..].
    - destruct (tfield_head f) as [[-> _]|(c & s & Hf & Hc)]; [done|].
      exists c, (s +:+ String LF rest). simpl. by rewrite Hf.
    - change (csv.join (tfield <$> f :: f' :: texts))
        with (tfield f +:+ String COMMA (csv.join (tfield <$> f' :: texts))).
      destruct (tfield_head f) as [[_ ->]|(c & s & -> & Hc)].
      + by eexists _, _.
      + by eexists _, _. }
  rewrite Heq, start_record_field, <- Heq by done.
  by rewrite read_fields.
Qed.

Lemma read_row (row : list csv.value) rest :
  Flat.reader csv.parse_reset false (File.translate false (csv.writerow row +:+ rest))
  = Flat.cons_row (read_back <$> row)
      (Flat.reader csv.parse_reset false (File.translate false rest)).
Proof.
  assert (∀ texts : list string,
    texts ≠ [] → texts ≠ [EmptyString] →
    Flat.reader csv.parse_reset false
      (File.translate false
         ((csv.join (csv.join_append <$> texts) +:+ csv.lineterminator) +:+ rest))
    = Flat.cons_row (File.universal_newlines <$> texts)
        (Flat.reader csv.parse_reset false (File.translate false rest))) as Hgen.
  { intros texts Hnil Hone.
    rewrite append_assoc, translate_app_crlf, translate_join.
    by apply read_row_text. }
  destruct row as [|v [|v' row]].
  - done.
  - unfold csv.writerow. destruct (csv.field_text v) as [|c f] eqn:Hv.
    + simpl. unfold read_back. by rewrite Hv.
    + simpl Py.is_empty. cbv iota.
      specialize (Hgen [String c f] ltac:(done) ltac:(done)).
      change (csv.join (csv.join_append <$> [String c f]))
        with (csv.join_append (String c f)) in Hgen.
      rewrite Hgen. unfold read_back. simpl. by rewrite Hv.
  - unfold csv.writerow.
    rewrite (list_fmap_compose csv.field_text csv.join_append).
    rewrite (Hgen (csv.field_text <$> v :: v' :: row)) by done.
    by rewrite <- list_fmap_compose.
Qed.

Lemma read_written (rows : list (list csv.value)) :
  Flat.reader csv.parse_reset false (File.translate false (written rows))
  = ((λ row : list csv.value, read_back <$> row) <$> rows, None).
Proof.
  induction rows as [|row rows IH]; [done|].
  simpl written. by rewrite read_row, IH.
Qed.

(** Whatever rows are written, the reader gives them back, but for the
    newlines in their cells, which come back translated. *)
Lemma csv_round_trip (rows : list (list csv.value)) :
  csv.reader (File.readlines (File.universal_newlines (written rows)))
  = ((λ row : list csv.value, read_back <$> row) <$> rows, None).
Proof. rewrite reader_readlines. apply read_written. Qed.

(** ** Saving *)

Lemma row_of_record_keys (r : record) (k : string) :
  is_Some (MedicalRecordsCollection.row_of_record r !! k) →
  k ∈ MedicalRecordsCollection.fieldnames.
Proof.
  unfold MedicalRecordsCollection.row_of_record, MedicalRecordsCollection.fieldnames.
  intros [v Hv].
  repeat (apply lookup_insert_Some in Hv as [[<- _]|[_ Hv]]; [set_solver|]).
  by rewrite lookup_empty in Hv.
Qed.

Lemma writerow_record (r : record) :
  csv.DictWriter_writerow MedicalRecordsCollection.fieldnames
    (MedicalRecordsCollection.row_of_record r)
  = Ok (csv.writerow (record_values r)).
Proof.
  unfold csv.DictWriter_writerow.
  rewrite filter_none.
  - by f_equal.
  - apply Forall_forall. intros k Hk Hnot. apply Hnot.
    apply list_elem_of_fmap in Hk as ([k' v] & -> & Hkv).
    apply elem_of_map_to_list in Hkv.
    by eapply row_of_record_keys.
Qed.

Lemma save_rows_spec filename recs w content :
  files w !! filename = Some content →
  MedicalRecordsCollection.save_rows filename recs w
  = (Ok tt,
     World (heap w)
           (<[filename := content +:+ written (record_values <$> recs)]> (files w))
           (stdout w)).
Proof.
  revert w content. induction recs as [|r recs IH]; intros w content Hfile.
  - simpl. rewrite append_nil_r, insert_id by done. by destruct w.
  - simpl MedicalRecordsCollection.save_rows. rewrite writerow_record.
    run_M. rewrite Hfile. simpl.
    erewrite IH by (simpl; apply lookup_insert_eq).
    simpl. by rewrite insert_insert_eq, append_assoc.
Qed.

Lemma save_to_csv_spec w c recs filename :
  heap w !! c = Some recs →
  recs ≠ [] →
  MedicalRecordsCollection.save_to_csv c filename w
  = (tt,
     World (heap w)
           (<[filename := saved_text recs]> (files w))
           (stdout w ++ [Print ("Сохранено " +:+ Py.str (Z.of_nat (length recs))
                                +:+ " записей в " +:+ filename)])).
Proof.
  intros Hc Hrecs. unfold MedicalRecordsCollection.save_to_csv.
  run_M. rewrite Hc. simpl.
  case_decide as Hlen; [by destruct recs|].
  run_M. rewrite lookup_insert_eq. simpl. rewrite Hc. simpl.
  erewrite save_rows_spec by (simpl; apply lookup_insert_eq).
  simpl. rewrite Hc. simpl. by rewrite !insert_insert_eq.
Qed.

(** ** Loading *)

Lemma load_rows_spec today c rows w l0 :
  heap w !! c = Some l0 →
  MedicalRecordsCollection.load_rows today c rows w
  = ((loaded today rows).2,
     World (<[c := l0 ++ (loaded today rows).1]> (heap w)) (files w) (stdout w)).
Proof.
  revert w l0. induction rows as [|row rows IH]; intros w l0 Hc.
  - simpl. rewrite app_nil_r, list_insert_id by done. by destruct w.
  - simpl. destruct (MedicalRecordsCollection.record_of_row today row) as [r|e|].
    + run_M. rewrite Hc. simpl.
      erewrite IH.
      2:{ simpl. apply list_lookup_insert_eq. by eapply lookup_lt_Some. }
      destruct (loaded today rows) as [records ending]. simpl.
      by rewrite list_insert_insert_eq, <- app_assoc.
    + simpl. rewrite app_nil_r, list_insert_id by done. by destruct w.
    + simpl. rewrite app_nil_r, list_insert_id by done. by destruct w.
Qed.

(** What [load_from_csv] does with a file that exists. *)
Lemma load_from_csv_spec today filename w content :
  files w !! filename = Some content →
  MedicalRecordsCollection.load_from_csv today filename w
  = let (rows, e) := csv.DictReader (File.readlines (File.universal_newlines content)) in
    let (records, ending) := loaded today rows in
    let w' o := World (heap w ++ [records]) (files w) (stdout w ++ o) in
    let collection := length (heap w) in
    match ending, e with
    | MedicalRecordsCollection.OutsideTypes, _ => (None, w' [])
    | MedicalRecordsCollection.Aborted e, _
    | MedicalRecordsCollection.Exhausted, Some e =>
        (Some collection, w' [PrintExn MedicalRecordsCollection.load_error e])
    | MedicalRecordsCollection.Exhausted, None =>
        (Some collection,
         w' [Print ("Загружено " +:+ Py.str (Z.of_nat (length records))
                    +:+ " записей из " +:+ filename)])
    end.
Proof.
  intros Hfile. unfold MedicalRecordsCollection.load_from_csv.
  run_M. rewrite Hfile. simpl.
  destruct (csv.DictReader _) as [rows e].
  run_M. erewrite load_rows_spec by (simpl; apply lookup_snoc).
  destruct (loaded today rows) as [records ending]. simpl.
  rewrite insert_snoc, app_nil_r.
  destruct ending, e; run_M; rewrite ?lookup_snoc; by rewrite ?app_nil_r.
Qed.

(** ** Saving, then loading *)

Lemma digits_plain (s : string) : all_digits s = true → csv.has_special s = false.
Proof.
  induction s as [|c s IH]; simpl; [done|].
  intros [Hc Hs]%andb_true_iff. rewrite IH by done.
  apply is_digit_cases in Hc. set_unfold. by destruct_or!; subst.
Qed.

Lemma read_back_int (n : Z) : read_back (csv.VInt n) = Py.str n.
Proof.
  unfold read_back, File.universal_newlines. simpl.
  apply translate_plain.
  destruct (str_shape n) as (s & Hs & [-> | ->]); simpl; by apply digits_plain.
Qed.

Lemma int_of_saved_cell (n : Z) :
  MedicalRecordsCollection.int_of_cell (Some (read_back (csv.VInt n))) = Ok n.
Proof.
  unfold MedicalRecordsCollection.int_of_cell.
  by rewrite read_back_int, int_str.
Qed.

(** The row read of the row written of a record gives the record again, as
    [reload] describes it. *)
Lemma record_of_saved_row today (r : record) :
  MedicalRecordsCollection.record_of_row today
    (csv.make_dict MedicalRecordsCollection.fieldnames (read_back <$> record_values r))
  = MedicalRecordsCollection.Built (reload today r).
Proof.
  set (row := csv.make_dict _ _).
  assert (row !! "id" = Some (Some (read_back (csv.VInt (Rec.id r))))) as Hid
    by reflexivity.
  assert (row !! "duration" = Some (Some (read_back (csv.VInt (Rec.duration r)))))
    as Hduration by reflexivity.
  assert (row !! "urgency" = Some (Some (read_back (csv.VInt (getattr_urgency r 0)))))
    as Hurgency by reflexivity.
  assert (row !! "patient_name" = Some (Some (read_back (csv.VStr (Rec.patient_name r)))))
    as Hpatient by reflexivity.
  assert (row !! "doctor_name" = Some (Some (read_back (csv.VStr (Rec.doctor_name r)))))
    as Hdoctor by reflexivity.
  assert (row !! "reason" = Some (Some (read_back (csv.VStr (Rec.reason r)))))
    as Hreason by reflexivity.
  assert (row !! "date" = Some (Some (read_back (csv.VStr (Rec.date r)))))
    as Hdate by reflexivity.
  clearbody row.
  unfold MedicalRecordsCollection.record_of_row, MedicalRecordsCollection.int_of_key,
    MedicalRecordsCollection.int_of_urgency, MedicalRecordsCollection.row_getitem.
  rewrite Hid, Hduration, Hurgency, Hpatient, Hdoctor, Hreason, Hdate.
  rewrite !int_of_saved_cell. simpl.
  unfold reload. by destruct (0 <? getattr_urgency r 0).
Qed.

Lemma loaded_built today row rows r :
  MedicalRecordsCollection.record_of_row today row = MedicalRecordsCollection.Built r →
  loaded today (row :: rows) = (r :: (loaded today rows).1, (loaded today rows).2).
Proof. intros Hrow. simpl. rewrite Hrow. by destruct (loaded today rows). Qed.

Lemma loaded_saved_rows today (recs : list record) :
  loaded today
    (csv.make_dict MedicalRecordsCollection.fieldnames
       <$> ((λ r, read_back <$> record_values r) <$> recs))
  = (reload today <$> recs, MedicalRecordsCollection.Exhausted).
Proof.
  induction recs as [|r recs IH]; [done|].
  rewrite !fmap_cons.
  erewrite loaded_built by apply record_of_saved_row.
  by rewrite IH.
Qed.

Lemma DictReader_saved_text (recs : list record) :
  csv.DictReader (File.readlines (File.universal_newlines (saved_text recs)))
  = (csv.make_dict MedicalRecordsCollection.fieldnames
       <$> ((λ r, read_back <$> record_values r) <$> recs), None).
Proof.
  unfold csv.DictReader, saved_text. rewrite csv_round_trip.
  rewrite fmap_cons.
  change (read_back <$> (csv.VStr <$> MedicalRecordsCollection.fieldnames))
    with MedicalRecordsCollection.fieldnames.
  rewrite <- list_fmap_compose. rewrite filter_all; [done|].
  apply Forall_fmap, Forall_forall. by intros r _.
Qed.

(** Saving the records of a collection that has some and loading the file
    gives a new collection of the records reloaded. *)
Lemma save_load today w c recs filename :
  heap w !! c = Some recs →
  recs ≠ [] →
  let saved := Print ("Сохранено " +:+ Py.str (Z.of_nat (length recs))
                      +:+ " записей в " +:+ filename) in
  let loaded := Print ("Загружено " +:+ Py.str (Z.of_nat (length recs))
                       +:+ " записей из " +:+ filename) in
  (MedicalRecordsCollection.save_to_csv c filename;;
   MedicalRecordsCollection.load_from_csv today filename) w
  = (Some (length (heap w)),
     World (heap w ++ [reload today <$> recs])
           (<[filename := saved_text recs]> (files w))
           ((stdout w ++ [saved]) ++ [loaded])).
Proof.
  intros Hc Hrecs saved loaded'. unfold mbind, M_bind.
  rewrite (save_to_csv_spec _ _ recs) by done.
  erewrite load_from_csv_spec by (simpl; apply lookup_insert_eq).
  rewrite DictReader_saved_text, loaded_saved_rows. simpl.
  by rewrite length_fmap.
Qed.

Lemma translate_no_cr (s : string) : no_cr s = true → File.translate false s = s.
Proof.
  induction s as [|c s IH]; simpl; [done|].
  intros [Hc Hs]%andb_true_iff. apply negb_true_iff in Hc.
  rewrite Hc, IH by done. by destruct (Ascii.eqb_spec c LF) as [->|].
Qed.

Lemma reload_survives today (r : record) : survives r → reload today r = r.
Proof.
  unfold survives, Rec.patient_name, Rec.doctor_name, Rec.reason, Rec.date.
  intros (Hp & Hd & Hr & Hdate & Htruthy & Hu).
  unfold reload, reload_slots, File.universal_newlines.
  destruct r as [[] | [] u]; simpl in *;
    rewrite !translate_no_cr by done; rewrite Htruthy.
  - done.
  - destruct (Z.ltb_spec 0 u); [done|]. specialize (Hu eq_refl). lia.
Qed.

Lemma reload_all_survive today (recs : list record) :
  Forall survives recs → reload today <$> recs = recs.
Proof.
  induction 1 as [|r recs Hr _ IH]; [done|].
  by rewrite fmap_cons, reload_survives, IH.
Qed.

(** Every record the constructors build has a date that is not empty. *)
Lemma truthy_app (s1 s2 : string) :
  Py.truthy s2 = true → Py.truthy (s1 +:+ s2) = true.
Proof. intros Hs2. by destruct s1. Qed.

Lemma date_or_today_truthy today date :
  Py.truthy (date_or_today today date) = true.
Proof.
  assert (Py.truthy (Py.isoformat today) = true) as Hiso.
  { unfold Py.isoformat. by apply truthy_app. }
  unfold date_or_today. destruct date as [d|]; [|done].
  by destruct (Py.truthy d) eqn:Hd.
Qed.

Lemma init_date_truthy today id patient_name doctor_name reason duration urgency date :
  Py.truthy (Rec.date (MedicalRecord_init today id patient_name doctor_name reason
                         duration date)) = true ∧
  Py.truthy (Rec.date (EmergencyRecord_init today id patient_name doctor_name reason
                         duration urgency date)) = true.
Proof. split; apply date_or_today_truthy. Qed.

(** ** Malformed rows *)

Lemma malformed_raises today (row : gmap string (option string)) :
  malformed row →
  ∃ ex, MedicalRecordsCollection.record_of_row today row
        = MedicalRecordsCollection.Raised ex.
Proof.
  intros Hm. unfold MedicalRecordsCollection.record_of_row.
  destruct (MedicalRecordsCollection.int_of_key row "id") as [n|e] eqn:Hid;
    [|by eexists].
  destruct (MedicalRecordsCollection.int_of_key row "duration") as [d|e] eqn:Hdu;
    [|by eexists].
  destruct (MedicalRecordsCollection.int_of_urgency row) as [u|e] eqn:Hu;
    [|by eexists].
  destruct (MedicalRecordsCollection.row_getitem row "patient_name") as [pn|e] eqn:Hpn;
    [|by eexists].
  destruct (MedicalRecordsCollection.row_getitem row "doctor_name") as [dn|e] eqn:Hdn;
    [|by eexists].
  destruct (MedicalRecordsCollection.row_getitem row "reason") as [rs|e] eqn:Hrs;
    [|by eexists].
  exfalso.
  unfold MedicalRecordsCollection.int_of_key, MedicalRecordsCollection.row_getitem,
    MedicalRecordsCollection.int_of_urgency, MedicalRecordsCollection.int_of_cell in *.
  destruct Hm as [(key & Hkey & [Hnone|(s & Hs & Hint)])|(key & Hkey & Hnone)];
    set_unfold in Hkey; destruct_or!; subst; try done;
    rewrite ?Hnone, ?Hs, ?Hint in *; done.
Qed.

(** ** The loader on every row, and on the rows that give typed records *)

Lemma untyped_inj (r1 r2 : record) : untyped r1 = untyped r2 → r1 = r2.
Proof.
  destruct r1 as [[]|[] ?], r2 as [[]|[] ?]; simpl; intros; by simplify_eq.
Qed.

(** The loop body on typed records is the loop body, as far as the record
    built is typed. *)
Lemma record_of_row_raw today (row : gmap string (option string)) :
  match MedicalRecordsCollection.record_of_row today row with
  | MedicalRecordsCollection.Built r => Raw.record_of_row today row = Ok (untyped r)
  | MedicalRecordsCollection.Raised e => Raw.record_of_row today row = Raise e
  | MedicalRecordsCollection.Untyped =>
      ∃ r, Raw.record_of_row today row = Ok r ∧ ∀ t, r ≠ untyped t
  end.
Proof.
  unfold MedicalRecordsCollection.record_of_row, Raw.record_of_row.
  destruct (MedicalRecordsCollection.int_of_key row "id") as [id|e]; [|done].
  destruct (MedicalRecordsCollection.int_of_key row "duration") as [du|e]; [|done].
  destruct (MedicalRecordsCollection.int_of_urgency row) as [u|e]; [|done].
  destruct (MedicalRecordsCollection.row_getitem row "patient_name") as [pn|e]; [|done].
  destruct (MedicalRecordsCollection.row_getitem row "doctor_name") as [dn|e]; [|done].
  destruct (MedicalRecordsCollection.row_getitem row "reason") as [rs|e]; [|done].
  destruct pn as [pn|], dn as [dn|], rs as [rs|], (0 <? u); simpl; try done;
    eexists; (split; [reflexivity|]); by intros [[]|[] ?].
Qed.

Lemma raw_load_rows_app today (records : list Raw.record)
    (rows : list (gmap string (option string))) :
  Raw.load_rows today records rows
  = (records ++ (Raw.load_rows today [] rows).1, (Raw.load_rows today [] rows).2).
Proof.
  revert records. induction rows as [|row rows IH]; intros records; simpl.
  { by rewrite app_nil_r. }
  destruct (Raw.record_of_row today row) as [r|e]; simpl; [|by rewrite app_nil_r].
  rewrite (IH (records ++ [r])), (IH [r]). simpl. by rewrite <- app_assoc.
Qed.

(** When the records built of the rows are typed, they are the records that
    the typed loop adds to the store. *)
Lemma loaded_raw today (rows : list (gmap string (option string)))
    (typed : list record) :
  (Raw.load_rows today [] rows).1 = untyped <$> typed →
  loaded today rows
  = (typed, from_option MedicalRecordsCollection.Aborted
                        MedicalRecordsCollection.Exhausted
                        (Raw.load_rows today [] rows).2).
Proof.
  revert typed. induction rows as [|row rows IH]; intros typed; simpl.
  { by destruct typed. }
  pose proof (record_of_row_raw today row) as Hrow.
  destruct (MedicalRecordsCollection.record_of_row today row) as [r|e|].
  - rewrite Hrow, raw_load_rows_app. simpl.
    destruct typed as [|t typed]; [done|]. rewrite fmap_cons.
    intros [= ->%untyped_inj Hrest]. by rewrite (IH typed Hrest).
  - rewrite Hrow. simpl. by destruct typed.
  - destruct Hrow as (r & -> & Hr). rewrite raw_load_rows_app. simpl.
    destruct typed as [|t typed]; [done|]. rewrite fmap_cons.
    intros [= -> _]. by destruct (Hr t).
Qed.

(** What [load_from_csv] does with a file that exists, and without one. *)
Lemma raw_load_from_csv_spec today filename w content :
  files w !! filename = Some content →
  Raw.load_from_csv today filename w
  = let (rows, e) := csv.DictReader (File.readlines (File.universal_newlines content)) in
    let (records, raised) := Raw.load_rows today [] rows in
    (records,
     World (heap w) (files w)
           (stdout w ++
            [match raised, e with
             | Some e, _ | None, Some e => PrintExn MedicalRecordsCollection.load_error e
             | None, None =>
                 Print ("Загружено " +:+ Py.str (Z.of_nat (length records))
                        +:+ " записей из " +:+ filename)
             end])).
Proof.
  intros Hfile. unfold Raw.load_from_csv. run_M. rewrite Hfile. simpl.
  destruct (csv.DictReader _) as [rows e].
  destruct (Raw.load_rows today [] rows) as [records raised].
  by destruct raised, e.
Qed.

Lemma raw_load_from_csv_missing today filename w :
  files w !! filename = None →
  Raw.load_from_csv today filename w
  = ([], World (heap w) (files w)
               (stdout w ++ [Print ("Файл " +:+ filename
                                    +:+ " не найден. Будет создан новый.")])).
Proof.
  intros Hfile. unfold Raw.load_from_csv. run_M. by rewrite Hfile.
Qed.

(** The loader always returns, having printed one line and changed nothing
    else. *)
Lemma raw_load_from_csv_total today filename w :
  ∃ records line,
    Raw.load_from_csv today filename w
    = (records, World (heap w) (files w) (stdout w ++ [line])).
Proof.
  destruct (files w !! filename) as [content|] eqn:Hfile.
  - rewrite (raw_load_from_csv_spec _ _ _ content) by done.
    destruct (csv.DictReader _) as [rows e].
    destruct (Raw.load_rows today [] rows) as [records raised]. by eexists _, _.
  - rewrite raw_load_from_csv_missing by done. by eexists _, _.
Qed.

(** The loader into the store of typed records is the loader, when the
    records it builds are typed. *)
Lemma load_from_csv_raw today filename w (typed : list record) w' :
  Raw.load_from_csv today filename w = (untyped <$> typed, w') →
  MedicalRecordsCollection.load_from_csv today filename w
  = (Some (length (heap w)), World (heap w ++ [typed]) (files w') (stdout w')).
Proof.
  destruct (files w !! filename) as [content|] eqn:Hfile.
  - rewrite (raw_load_from_csv_spec _ _ _ content),
      (load_from_csv_spec _ _ _ content) by done.
    destruct (csv.DictReader _) as [rows e].
    pose proof (loaded_raw today rows typed) as Hloaded.
    destruct (Raw.load_rows today [] rows) as [records raised]. simpl in Hloaded.
    intros [= Hrecords <-]. rewrite (Hloaded Hrecords). simpl.
    assert (length records = length typed) as <-.
    { by rewrite Hrecords, length_fmap. }
    by destruct raised, e.
  - rewrite raw_load_from_csv_missing by done.
    destruct typed as [|t typed]; [|done]. intros [= <-].
    unfold MedicalRecordsCollection.load_from_csv. run_M. by rewrite Hfile.
Qed.

(** ** Malformed rows *)

Lemma malformed_raised today (row : gmap string (option string)) :
  malformed row ↔ ∃ ex, Raw.record_of_row today row = Raise ex.
Proof.
  split.
  - intros [ex Hex]%(malformed_raises today).
    pose proof (record_of_row_raw today row) as Hrow. rewrite Hex in Hrow.
    by exists ex.
  - intros [ex Hex]. revert Hex.
    unfold Raw.record_of_row, MedicalRecordsCollection.int_of_key,
      MedicalRecordsCollection.int_of_urgency, MedicalRecordsCollection.row_getitem,
      MedicalRecordsCollection.int_of_cell, malformed.
    destruct (row !! "id") as [[ids|]|] eqn:Hid.
    2:{ intros _. left. exists "id". split; [by repeat constructor|by left]. }
    2:{ intros _. right. exists "id". split; [by repeat constructor|done]. }
    destruct (Py.int ids) as [id|] eqn:Hids.
    2:{ intros _. left. exists "id". split; [by repeat constructor|]. right. by exists ids. }
    destruct (row !! "duration") as [[dus|]|] eqn:Hdu.
    2:{ intros _. left. exists "duration". split; [by repeat constructor|by left]. }
    2:{ intros _. right. exists "duration". split; [by repeat constructor|done]. }
    destruct (Py.int dus) as [du|] eqn:Hdus.
    2:{ intros _. left. exists "duration". split; [by repeat constructor|]. right. by exists dus. }
    destruct (row !! "urgency") as [[us|]|] eqn:Hu.
    2:{ intros _. left. exists "urgency". split; [by repeat constructor|by left]. }
    + destruct (Py.int us) as [u|] eqn:Hus.
      2:{ intros _. left. exists "urgency". split; [by repeat constructor|]. right. by exists us. }
      intros Hraise. right.
      destruct (row !! "patient_name") as [pn|] eqn:Hpn.
      2:{ exists "patient_name". split; [by repeat constructor|done]. }
      destruct (row !! "doctor_name") as [dn|] eqn:Hdn.
      2:{ exists "doctor_name". split; [by repeat constructor|done]. }
      destruct (row !! "reason") as [rs|] eqn:Hrs.
      2:{ exists "reason". split; [by repeat constructor|done]. }
      by destruct (0 <? u).
    + intros Hraise. right.
      destruct (row !! "patient_name") as [pn|] eqn:Hpn.
      2:{ exists "patient_name". split; [by repeat constructor|done]. }
      destruct (row !! "doctor_name") as [dn|] eqn:Hdn.
      2:{ exists "doctor_name". split; [by repeat constructor|done]. }
      destruct (row !! "reason") as [rs|] eqn:Hrs.
      2:{ exists "reason". split; [by repeat constructor|done]. }
      done.
Qed.

(** The rows before the first malformed row give a record each. *)
Lemma well_formed_built today (pre : list (gmap string (option string))) :
  Forall (λ row, ¬ malformed row) pre →
  ∃ built, Forall2 (λ row r, Raw.record_of_row today row = Ok r) pre built.
Proof.
  induction 1 as [|row pre Hrow _ [built IH]]; [by exists []|].
  destruct (Raw.record_of_row today row) as [r|ex] eqn:Hr.
  - exists (r :: built). by constructor.
  - destruct Hrow. apply (malformed_raised today). by exists ex.
Qed.

Lemma raw_load_rows_prefix today pre bad rest built ex :
  Forall2 (λ row r, Raw.record_of_row today row = Ok r) pre built →
  Raw.record_of_row today bad = Raise ex →
  Raw.load_rows today [] (pre ++ bad :: rest) = (built, Some ex).
Proof.
  intros Hpre Hbad. induction Hpre as [|row r pre built Hrow _ IH]; simpl.
  - by rewrite Hbad.
  - by rewrite Hrow, raw_load_rows_app, IH.
Qed.

(** * The claims *)

(** C3. [filter_by_duration(N)] answers with a new collection that holds
    exactly the records whose duration is greater than [N], in the order they
    have in the collection, which is left as it was. *)
Theorem filter_by_duration_spec (w : world) (self : ref) (recs : list record) (N : Z) :
  heap w !! self = Some recs →
  let l := filter (λ r, N < Rec.duration r) recs in
  let new := length (heap w) in
  let w' := World (heap w ++ [l]) (files w) (stdout w) in
  MedicalRecordsCollection.filter_by_duration self N w = (new, w') ∧
  new ≠ self ∧
  heap w' !! new = Some l ∧
  heap w' !! self = Some recs ∧
  l `sublist_of` recs ∧
  (∀ r, r ∈ l ↔ r ∈ recs ∧ N < Rec.duration r).
Proof.
  intros Hself l new w'. split_and!.
  - by apply (derive_spec (filter (λ r, N < Rec.duration r))).
  - symmetry. by eapply lookup_fresh.
  - apply lookup_snoc.
  - by apply lookup_app_l_Some.
  - apply sublist_filter.
  - intros r. unfold l. rewrite list_elem_of_filter. tauto.
Qed.

(** C4. [sort_by_patient_name()] and [sort_by_duration()] answer with a new
    collection that holds the stable sort of the records by the key; the
    collection itself is left as it was. *)
Theorem sort_spec (w : world) (self : ref) (recs : list record) :
  heap w !! self = Some recs →
  let new := length (heap w) in
  let by_name := Py.sorted Rec.patient_name String.ltb recs in
  let by_duration := Py.sorted Rec.duration Z.ltb recs in
  MedicalRecordsCollection.sort_by_patient_name self w
    = (new, World (heap w ++ [by_name]) (files w) (stdout w)) ∧
  MedicalRecordsCollection.sort_by_duration self w
    = (new, World (heap w ++ [by_duration]) (files w) (stdout w)) ∧
  stable_sort_of Rec.patient_name String.le by_name recs ∧
  stable_sort_of Rec.duration Z.le by_duration recs ∧
  new ≠ self ∧
  ∀ l, (heap w ++ [l]) !! new = Some l ∧ (heap w ++ [l]) !! self = Some recs.
Proof.
  intros Hself new by_name by_duration. split_and!.
  - by apply (derive_spec (Py.sorted Rec.patient_name String.ltb)).
  - by apply (derive_spec (Py.sorted Rec.duration Z.ltb)).
  - split_and!.
    + apply sorted_perm.
    + eapply StronglySorted_mono;
        [|apply sorted_sorted; [apply string_ltb_irrefl|apply string_ltb_trans]].
      intros a b. apply string_ltb_leb.
    + intros k. apply sorted_stable; [apply string_ltb_irrefl|apply string_ltb_trans].
  - split_and!.
    + apply sorted_perm.
    + eapply StronglySorted_mono; [|apply sorted_sorted; intros; lia].
      simpl. intros a b. lia.
    + intros k. apply sorted_stable; intros; lia.
  - symmetry. by eapply lookup_fresh.
  - intros l. split; [apply lookup_snoc|by apply lookup_app_l_Some].
Qed.

(** C7. The urgency an emergency record displays depends on its urgency
    level alone: 1 is shown as critical, 2 as high, 3 as medium and every
    other integer as unknown. *)
Theorem urgency_display (s : slots) (urgency : Z) :
  record_str (EmergencyRecord s urgency)
    = MedicalRecord_str s +:+ " | Срочность: " +:+ urgency_label urgency ∧
  urgency_str urgency = urgency_label urgency ∧
  urgency_label 1 = "критическая" ∧
  urgency_label 2 = "высокая" ∧
  urgency_label 3 = "средняя" ∧
  (urgency ≠ 1 → urgency ≠ 2 → urgency ≠ 3 → urgency_label urgency = "неизвестная").
Proof.
  assert (urgency_str urgency = urgency_label urgency) as Hlabel.
  { unfold urgency_str, urgency_label, URGENCY_LEVELS.
    repeat case_decide; simplify_map_eq; done. }
  split_and!; try done.
  - simpl. unfold EmergencyRecord_str. by rewrite Hlabel.
  - intros. unfold urgency_label. by repeat case_decide.
Qed.

Lemma filter_by_duration_witness :
  heap Example.w0 !! 0%nat = Some [Example.visit; Example.emergency] ∧
  MedicalRecordsCollection.filter_by_duration 0%nat 20 Example.w0
    = (1%nat, World [[Example.visit; Example.emergency]; [Example.emergency]] ∅ []).
Proof.
  split; [reflexivity|].
  destruct (filter_by_duration_spec Example.w0 0%nat
              [Example.visit; Example.emergency] 20 eq_refl) as [H _].
  exact H.
Defined.

Lemma sort_witness :
  heap Example.w0 !! 0%nat = Some [Example.visit; Example.emergency] ∧
  MedicalRecordsCollection.sort_by_duration 0%nat Example.w0
    = (1%nat, World [[Example.visit; Example.emergency];
                     [Example.visit; Example.emergency]] ∅ []) ∧
  MedicalRecordsCollection.sort_by_patient_name 0%nat Example.w0
    = (1%nat, World [[Example.visit; Example.emergency];
                     [Example.emergency; Example.visit]] ∅ []).
Proof.
  split; [reflexivity|].
  destruct (sort_spec Example.w0 0%nat
              [Example.visit; Example.emergency] eq_refl) as (H1 & H2 & _).
  split; [exact H2|exact H1].
Defined.

(** C8. [get_records_by_doctor(name)] yields the records whose doctor name is
    [name], [get_emergency_records()] those of the emergency class, both in
    the order of the collection; calling the operation again scans the
    collection again and yields the same records. *)
Theorem generators_spec (w : world) (self : ref) (recs : list record)
    (name : string) (fuel : nat) :
  heap w !! self = Some recs →
  (length recs < fuel)%nat →
  let by_doctor := filter (λ r, Rec.doctor_name r = name) recs in
  let emergencies := filter (λ r, is_emergency r = true) recs in
  let list_by_doctor :=
    MedicalRecordsCollection.drain fuel
      (MedicalRecordsCollection.get_records_by_doctor self name) in
  let list_emergencies :=
    MedicalRecordsCollection.drain fuel
      (MedicalRecordsCollection.get_emergency_records self) in
  list_by_doctor w = (Some by_doctor, w) ∧
  list_emergencies w = (Some emergencies, w) ∧
  (a ← list_by_doctor; b ← list_by_doctor; mret (a, b)) w
    = ((Some by_doctor, Some by_doctor), w) ∧
  (a ← list_emergencies; b ← list_emergencies; mret (a, b)) w
    = ((Some emergencies, Some emergencies), w).
Proof.
  intros Hself Hfuel by_doctor emergencies list_by_doctor list_emergencies.
  assert (list_by_doctor w = (Some by_doctor, w)) as Hd.
  { unfold list_by_doctor, MedicalRecordsCollection.get_records_by_doctor.
    rewrite (drain_from _ _ _ recs) by (done || lia).
    rewrite drop_0. do 2 f_equal. apply list_filter_iff.
    intros r. apply bool_decide_eq_true. }
  assert (list_emergencies w = (Some emergencies, w)) as He.
  { unfold list_emergencies, MedicalRecordsCollection.get_emergency_records.
    rewrite (drain_from _ _ _ recs) by (done || lia).
    by rewrite drop_0. }
  split_and!; [done|done|..]; unfold mbind, M_bind; by rewrite ?Hd, ?He.
Qed.

Lemma generators_witness :
  heap Example.w0 !! 0%nat = Some [Example.visit; Example.emergency] ∧
  (2 < 3)%nat ∧
  MedicalRecordsCollection.drain 3
    (MedicalRecordsCollection.get_emergency_records 0%nat) Example.w0
    = (Some [Example.emergency], Example.w0).
Proof.
  split; [reflexivity|]. split; [lia|].
  destruct (generators_spec Example.w0 0%nat [Example.visit; Example.emergency]
              "Petrova" 3 eq_refl ltac:(simpl; lia)) as (_ & H & _).
  exact H.
Defined.

(** C10. [collection[i]] is the record at position [i] when
    [0 <= i < len(collection)], and raises [IndexError] when
    [i >= len(collection)]. *)
Theorem getitem_spec (w : world) (self : ref) (recs : list record) (i : Z) :
  heap w !! self = Some recs →
  MedicalRecordsCollection.len self w = (length recs, w) ∧
  (0 ≤ i < Z.of_nat (length recs) →
     ∃ r, recs !! Z.to_nat i = Some r ∧
          MedicalRecordsCollection.getitem self i w = (Ok r, w)) ∧
  (Z.of_nat (length recs) ≤ i →
     MedicalRecordsCollection.getitem self i w = (Raise IndexError, w)).
Proof.
  intros Hself. split_and!.
  - run_M. by rewrite Hself.
  - intros Hi. destruct (lookup_lt_is_Some_2 recs (Z.to_nat i)) as [r Hr]; [lia|].
    exists r. split; [done|]. run_M. rewrite Hself; simpl.
    unfold MedicalRecordsCollection.list_getitem.
    destruct (Z.ltb_spec i 0); [lia|].
    destruct (Z.ltb_spec i 0); [lia|]. by rewrite Hr.
  - intros Hi. run_M. rewrite Hself; simpl.
    unfold MedicalRecordsCollection.list_getitem.
    destruct (Z.ltb_spec i 0); [lia|].
    destruct (Z.ltb_spec i 0); [lia|].
    by rewrite lookup_ge_None_2 by lia.
Qed.

Lemma getitem_witness :
  heap Example.w0 !! 0%nat = Some [Example.visit; Example.emergency] ∧
  MedicalRecordsCollection.getitem 0%nat 1 Example.w0 = (Ok Example.emergency, Example.w0) ∧
  MedicalRecordsCollection.getitem 0%nat 2 Example.w0 = (Raise IndexError, Example.w0).
Proof.
  split; [reflexivity|].
  destruct (getitem_spec Example.w0 0%nat [Example.visit; Example.emergency] 2 eq_refl)
    as (_ & _ & H2).
  split; [reflexivity|]. apply H2. simpl. lia.
Defined.

Lemma urgency_display_witness :
  (4 ≠ 1 → 4 ≠ 2 → 4 ≠ 3 → urgency_label 4 = "неизвестная") ∧
  urgency_str 0 = "неизвестная".
Proof.
  destruct (urgency_display (base Example.visit) 4) as (_ & _ & _ & _ & _ & H).
  split; [exact H|reflexivity].
Defined.

(** C5. Loading a file that does not exist answers with an empty collection
    and prints a message; nothing is raised. *)
Theorem load_missing_file (today : Py.date) (w : world) (filename : string) :
  files w !! filename = None →
  let collection := length (heap w) in
  let w' := World (heap w ++ [[]]) (files w)
                  (stdout w ++ [Print ("Файл " +:+ filename
                                       +:+ " не найден. Будет создан новый.")]) in
  MedicalRecordsCollection.load_from_csv today filename w = (Some collection, w') ∧
  MedicalRecordsCollection.len collection w' = (0%nat, w').
Proof.
  intros Hfile collection w'. split.
  - unfold MedicalRecordsCollection.load_from_csv. run_M. by rewrite Hfile.
  - unfold w', collection. run_M. by rewrite lookup_snoc.
Qed.

Lemma load_missing_file_witness :
  files Example.w0 !! "data.csv" = None ∧
  MedicalRecordsCollection.load_from_csv Example.today "data.csv" Example.w0
  = (Some 1%nat,
     World [[Example.visit; Example.emergency]; []] ∅
           [Print "Файл data.csv не найден. Будет создан новый."]).
Proof.
  split; [reflexivity|].
  destruct (load_missing_file Example.today Example.w0 "data.csv" eq_refl) as [H _].
  exact H.
Defined.

(** C6. Saving an empty collection prints a message and does nothing else:
    no file is opened, and the files are as they were. *)
Theorem save_empty_collection (w : world) (collection : ref) (filename : string) :
  heap w !! collection = Some [] →
  MedicalRecordsCollection.save_to_csv collection filename w
  = (tt, World (heap w) (files w) (stdout w ++ [Print "Нет данных для сохранения!"])).
Proof.
  intros Hc. unfold MedicalRecordsCollection.save_to_csv. run_M.
  by rewrite Hc.
Qed.

Lemma save_empty_collection_witness :
  heap Example.w_broken !! 0%nat = None ∧
  heap (World [[]] (files Example.w_broken) []) !! 0%nat = Some [] ∧
  MedicalRecordsCollection.save_to_csv 0%nat "data.csv"
    (World [[]] (files Example.w_broken) [])
  = (tt, World [[]] (files Example.w_broken) [Print "Нет данных для сохранения!"]).
Proof.
  split; [reflexivity|]. split; [reflexivity|].
  exact (save_empty_collection (World [[]] (files Example.w_broken) []) 0%nat
           "data.csv" eq_refl).
Defined.

(** C1, as the code has it. Saving a collection that is not empty and
    loading the file gives a new collection of the same records, field by
    field and class by class, when no text of theirs has a carriage return,
    their dates are not empty and their emergency records have an urgency of
    at least 1. *)
Theorem round_trip (today : Py.date) (w : world) (collection : ref)
    (recs : list record) (filename : string) :
  heap w !! collection = Some recs →
  recs ≠ [] →
  Forall survives recs →
  ∃ w',
    (MedicalRecordsCollection.save_to_csv collection filename;;
     MedicalRecordsCollection.load_from_csv today filename) w
    = (Some (length (heap w)), w') ∧
    heap w' !! length (heap w) = Some recs ∧
    heap w' !! collection = Some recs ∧
    files w' !! filename = Some (saved_text recs).
Proof.
  intros Hc Hrecs Hsurvive. eexists. split; [by apply save_load|].
  simpl. split_and!.
  - by rewrite lookup_snoc, reload_all_survive.
  - by apply lookup_app_l_Some.
  - apply lookup_insert_eq.
Qed.

Lemma round_trip_witness :
  heap Example.w0 !! 0%nat = Some [Example.visit; Example.emergency] ∧
  Forall survives [Example.visit; Example.emergency] ∧
  ∃ w',
    (MedicalRecordsCollection.save_to_csv 0%nat "data.csv";;
     MedicalRecordsCollection.load_from_csv Example.today "data.csv") Example.w0
    = (Some 1%nat, w') ∧
    heap w' !! 1%nat = Some [Example.visit; Example.emergency] ∧
    heap w' !! 0%nat = Some [Example.visit; Example.emergency] ∧
    files w' !! "data.csv" = Some (saved_text [Example.visit; Example.emergency]).
Proof.
  assert (Forall survives [Example.visit; Example.emergency]) as Hsurvive.
  { repeat constructor; simpl; intros; (reflexivity || discriminate || lia). }
  split; [reflexivity|]. split; [exact Hsurvive|].
  apply (round_trip Example.today Example.w0 0%nat
           [Example.visit; Example.emergency] "data.csv");
    [reflexivity|discriminate|exact Hsurvive].
Defined.

(** C1 fails as it is stated: an emergency record of urgency 0 is loaded as a
    record of the base class, without its urgency. *)
Lemma round_trip_counterexample :
  ∃ w',
    (MedicalRecordsCollection.save_to_csv 0%nat "data.csv";;
     MedicalRecordsCollection.load_from_csv Example.today "data.csv") Example.w_unranked
    = (Some 1%nat, w') ∧
    heap w' !! 0%nat = Some [Example.visit; Example.unranked] ∧
    heap w' !! 1%nat = Some [Example.visit; MedicalRecord (base Example.unranked)] ∧
    heap w' !! 1%nat ≠ heap w' !! 0%nat.
Proof.
  eexists. split.
  - by apply (save_load Example.today Example.w_unranked 0%nat
                [Example.visit; Example.unranked] "data.csv").
  - split_and!; [reflexivity|reflexivity|discriminate].
Qed.

(** A carriage return in a text comes back as a line feed: the file is
    written with [newline=''] and read without. *)
Lemma round_trip_carriage_return :
  ∃ w',
    (MedicalRecordsCollection.save_to_csv 0%nat "data.csv";;
     MedicalRecordsCollection.load_from_csv Example.today "data.csv") Example.w_dictated
    = (Some 1%nat, w') ∧
    Rec.reason <$> default [] (heap w' !! 0%nat)
      = [String "f" (String "l" (String "u" (String CR EmptyString)))] ∧
    Rec.reason <$> default [] (heap w' !! 1%nat)
      = [String "f" (String "l" (String "u" (String LF EmptyString)))].
Proof.
  eexists. split.
  - by apply (save_load Example.today Example.w_dictated 0%nat
                [Example.dictated] "data.csv").
  - split; reflexivity.
Qed.

(** C9. An emergency record whose urgency is 0 or less is saved and loaded
    as a record of the base class: loading makes an emergency record of a row
    only when its urgency is greater than 0. *)
Theorem nonpositive_urgency_is_lost (today : Py.date) (w : world) (collection : ref)
    (recs : list record) (filename : string) (i : nat) (s : slots) (urgency : Z) :
  heap w !! collection = Some recs →
  recs !! i = Some (EmergencyRecord s urgency) →
  urgency ≤ 0 →
  ∃ w' recs',
    (MedicalRecordsCollection.save_to_csv collection filename;;
     MedicalRecordsCollection.load_from_csv today filename) w
    = (Some (length (heap w)), w') ∧
    heap w' !! length (heap w) = Some recs' ∧
    length recs' = length recs ∧
    recs' !! i = Some (MedicalRecord (reload_slots today s)) ∧
    _id (reload_slots today s) = _id s ∧
    _duration (reload_slots today s) = _duration s ∧
    (∀ j r, recs' !! j = Some r → is_emergency r = true → 0 < getattr_urgency r 0).
Proof.
  intros Hc Hi Hu. eexists _, (reload today <$> recs). split.
  { apply save_load; [done|]. intros ->. by rewrite lookup_nil in Hi. }
  simpl. split_and!; try done.
  - apply lookup_snoc.
  - apply length_fmap.
  - rewrite list_lookup_fmap, Hi. simpl. unfold reload. simpl.
    by destruct (Z.ltb_spec 0 urgency); [lia|].
  - intros j r. rewrite list_lookup_fmap.
    destruct (recs !! j) as [r0|]; [|done]. simpl. intros [= <-].
    unfold reload. destruct (Z.ltb_spec 0 (getattr_urgency r0 0)); [|done].
    simpl. lia.
Qed.

Lemma nonpositive_urgency_is_lost_witness :
  heap Example.w_unranked !! 0%nat = Some [Example.visit; Example.unranked] ∧
  [Example.visit; Example.unranked] !! 1%nat
    = Some (EmergencyRecord (base Example.unranked) 0) ∧
  0 ≤ 0 ∧
  ∃ w' recs',
    (MedicalRecordsCollection.save_to_csv 0%nat "data.csv";;
     MedicalRecordsCollection.load_from_csv Example.today "data.csv") Example.w_unranked
    = (Some 1%nat, w') ∧
    heap w' !! 1%nat = Some recs' ∧
    recs' !! 1%nat = Some (MedicalRecord (base Example.unranked)).
Proof.
  split; [reflexivity|]. split; [reflexivity|]. split; [lia|].
  destruct (nonpositive_urgency_is_lost Example.today Example.w_unranked 0%nat
              [Example.visit; Example.unranked] "data.csv" 1%nat
              (base Example.unranked) 0 eq_refl eq_refl ltac:(lia))
    as (w' & recs' & Hrun & Hheap & _ & Hi & _).
  exists w', recs'. split; [exact Hrun|]. split; [exact Hheap|exact Hi].
Defined.

(** C2 fails as it is stated: the records of the rows before the malformed
    row are in the collection that is returned. *)
Lemma load_malformed_counterexample :
  (∃ rows e bad,
     csv.DictReader (File.readlines (File.universal_newlines Example.broken)) = (rows, e) ∧
     rows !! 1%nat = Some bad ∧ malformed bad) ∧
  Raw.load_from_csv Example.today "data.csv" Example.w_broken
  = ([untyped Example.visit],
     World [] (files Example.w_broken)
           [PrintExn MedicalRecordsCollection.load_error (ValueError "x")]) ∧
  MedicalRecordsCollection.load_from_csv Example.today "data.csv" Example.w_broken
  = (Some 0%nat,
     World [[Example.visit]] (files Example.w_broken)
           [PrintExn MedicalRecordsCollection.load_error (ValueError "x")]).
Proof.
  split; [|split].
  - eexists _, _, _. split; [vm_compute; reflexivity|].
    split; [reflexivity|].
    left. exists "id". split; [by repeat constructor|].
    right. exists "x". split; reflexivity.
  - vm_compute. reflexivity.
  - vm_compute. reflexivity.
Qed.

(** C2, as the code has it. At the first malformed row the load stops and
    prints a message: the collection that is returned holds one record for
    each row before that row, built of it, and none for the rows behind it.
    Where these records hold a str in every text slot, they are the records
    of the new collection in the store. *)
Theorem load_stops_at_malformed_row (today : Py.date) (w : world)
    (filename content : string)
    (pre : list (gmap string (option string))) (bad : gmap string (option string))
    (rest : list (gmap string (option string))) (e : option exn) :
  files w !! filename = Some content →
  csv.DictReader (File.readlines (File.universal_newlines content))
    = (pre ++ bad :: rest, e) →
  Forall (λ row, ¬ malformed row) pre →
  malformed bad →
  ∃ ex built,
    Raw.load_from_csv today filename w
    = (built,
       World (heap w) (files w)
             (stdout w ++ [PrintExn MedicalRecordsCollection.load_error ex])) ∧
    Raw.record_of_row today bad = Raise ex ∧
    Forall2 (λ row r, Raw.record_of_row today row = Ok r) pre built ∧
    ∀ typed, built = untyped <$> typed →
      MedicalRecordsCollection.load_from_csv today filename w
      = (Some (length (heap w)),
         World (heap w ++ [typed]) (files w)
               (stdout w ++ [PrintExn MedicalRecordsCollection.load_error ex])).
Proof.
  intros Hfile Hrows Hpre Hbad.
  apply (malformed_raised today) in Hbad as [ex Hex].
  destruct (well_formed_built today pre Hpre) as [built Hbuilt].
  assert (Raw.load_from_csv today filename w
          = (built,
             World (heap w) (files w)
                   (stdout w ++ [PrintExn MedicalRecordsCollection.load_error ex])))
    as Hload.
  { rewrite (raw_load_from_csv_spec _ _ _ content) by done.
    by rewrite Hrows, (raw_load_rows_prefix today pre bad rest built ex). }
  exists ex, built. split_and!; [done..|].
  intros typed ->. by rewrite (load_from_csv_raw _ _ _ _ _ Hload).
Qed.

Lemma load_stops_at_malformed_row_witness :
  files Example.w_broken !! "data.csv" = Some Example.broken ∧
  csv.DictReader (File.readlines (File.universal_newlines Example.broken))
    = ([Example.first_row] ++ Example.second_row :: [Example.third_row], None) ∧
  Forall (λ row, ¬ malformed row) [Example.first_row] ∧
  malformed Example.second_row ∧
  ∃ ex built,
    Raw.load_from_csv Example.today "data.csv" Example.w_broken
    = (built,
       World [] (files Example.w_broken)
             [PrintExn MedicalRecordsCollection.load_error ex]) ∧
    Forall2 (λ row r, Raw.record_of_row Example.today row = Ok r)
      [Example.first_row] built.
Proof.
  assert (csv.DictReader (File.readlines (File.universal_newlines Example.broken))
          = ([Example.first_row] ++ Example.second_row :: [Example.third_row], None))
    as Hrows by (vm_compute; reflexivity).
  assert (malformed Example.second_row) as Hbad.
  { left. exists "id". split; [by repeat constructor|].
    right. exists "x". split; reflexivity. }
  assert (Forall (λ row, ¬ malformed row) [Example.first_row]) as Hpre.
  { constructor; [|constructor].
    intros [ex Hex]%(malformed_raised Example.today). discriminate Hex. }
  split; [reflexivity|]. split; [exact Hrows|]. split; [exact Hpre|].
  split; [exact Hbad|].
  destruct (load_stops_at_malformed_row Example.today Example.w_broken "data.csv"
              Example.broken [Example.first_row] Example.second_row
              [Example.third_row] None eq_refl Hrows Hpre Hbad)
    as (ex & built & Hload & _ & Hbuilt & _).
  exists ex, built. split; [exact Hload|exact Hbuilt].
Defined.

(** * Further properties of the program *)

(** ** The collection as a list *)

(** X1. [add(record)] puts the record at the end of the collection, whatever
    its id: the length grows by one, the record is the last one, and the
    records that were there keep their places; no other collection
    changes. *)
Theorem add_appends (w : world) (self : ref) (recs : list record) (r : record) :
  heap w !! self = Some recs →
  let w' := World (<[self := recs ++ [r]]> (heap w)) (files w) (stdout w) in
  MedicalRecordsCollection.add self r w = (tt, w') ∧
  MedicalRecordsCollection.len self w' = (S (length recs), w') ∧
  MedicalRecordsCollection.getitem self (Z.of_nat (length recs)) w' = (Ok r, w') ∧
  MedicalRecordsCollection.getitem self (-1) w' = (Ok r, w') ∧
  (∀ i x, recs !! i = Some x →
          MedicalRecordsCollection.getitem self (Z.of_nat i) w' = (Ok x, w')) ∧
  (∀ c l, c ≠ self → heap w !! c = Some l → heap w' !! c = Some l).
Proof.
  intros Hself w'.
  assert (<[self := recs ++ [r]]> (heap w) !! self = Some (recs ++ [r])) as Hself'.
  { apply list_lookup_insert_eq. by eapply lookup_lt_Some. }
  unfold w'. split_and!.
  - run_M. by rewrite Hself.
  - run_M. rewrite Hself'. simpl. rewrite length_app. simpl.
    by replace (length recs + 1)%nat with (S (length recs)) by lia.
  - run_M. rewrite Hself'. simpl. unfold MedicalRecordsCollection.list_getitem.
    destruct (Z.ltb_spec (Z.of_nat (length recs)) 0); [lia|].
    destruct (Z.ltb_spec (Z.of_nat (length recs)) 0); [lia|].
    by rewrite Nat2Z.id, lookup_snoc.
  - run_M. rewrite Hself'. simpl. unfold MedicalRecordsCollection.list_getitem.
    simpl. rewrite length_app. simpl.
    replace (-1 + Z.of_nat (length recs + 1)) with (Z.of_nat (length recs)) by lia.
    destruct (Z.ltb_spec (Z.of_nat (length recs)) 0); [lia|].
    by rewrite Nat2Z.id, lookup_snoc.
  - intros i x Hi. run_M. rewrite Hself'. simpl.
    unfold MedicalRecordsCollection.list_getitem.
    destruct (Z.ltb_spec (Z.of_nat i) 0); [lia|].
    destruct (Z.ltb_spec (Z.of_nat i) 0); [lia|].
    by rewrite Nat2Z.id, (lookup_app_l_Some _ _ _ _ Hi).
  - intros c l Hc Hl. simpl. by rewrite list_lookup_insert_ne.
Qed.

Lemma add_appends_witness :
  heap Example.w0 !! 0%nat = Some [Example.visit; Example.emergency] ∧
  MedicalRecordsCollection.add 0%nat Example.visit Example.w0
  = (tt, World [[Example.visit; Example.emergency; Example.visit]] ∅ []).
Proof.
  split; [reflexivity|].
  destruct (add_appends Example.w0 0%nat [Example.visit; Example.emergency]
              Example.visit eq_refl) as [H _].
  exact H.
Defined.

(** X2. A negative index counts from the end: [collection[i]] with
    [-len <= i < 0] is the record at position [len + i], and
    [collection[i]] with [i < -len] raises [IndexError]. *)
Theorem getitem_negative (w : world) (self : ref) (recs : list record) (i : Z) :
  heap w !! self = Some recs →
  (- Z.of_nat (length recs) ≤ i < 0 →
     ∃ r, recs !! Z.to_nat (Z.of_nat (length recs) + i) = Some r ∧
          MedicalRecordsCollection.getitem self i w = (Ok r, w)) ∧
  (i < - Z.of_nat (length recs) →
     MedicalRecordsCollection.getitem self i w = (Raise IndexError, w)).
Proof.
  intros Hself. split.
  - intros Hi.
    destruct (lookup_lt_is_Some_2 recs (Z.to_nat (Z.of_nat (length recs) + i)))
      as [r Hr]; [lia|].
    exists r. split; [done|]. run_M. rewrite Hself. simpl.
    unfold MedicalRecordsCollection.list_getitem.
    destruct (Z.ltb_spec i 0); [|lia].
    destruct (Z.ltb_spec (i + Z.of_nat (length recs)) 0); [lia|].
    by rewrite Z.add_comm, Hr.
  - intros Hi. run_M. rewrite Hself. simpl.
    unfold MedicalRecordsCollection.list_getitem.
    destruct (Z.ltb_spec i 0); [|lia].
    by destruct (Z.ltb_spec (i + Z.of_nat (length recs)) 0); [|lia].
Qed.

Lemma getitem_negative_witness :
  heap Example.w0 !! 0%nat = Some [Example.visit; Example.emergency] ∧
  MedicalRecordsCollection.getitem 0%nat (-3) Example.w0 = (Raise IndexError, Example.w0).
Proof.
  split; [reflexivity|].
  destruct (getitem_negative Example.w0 0%nat [Example.visit; Example.emergency]
              (-3) eq_refl) as [_ H].
  apply H. simpl. lia.
Defined.

(** ** Records *)

(** X3. The date of a record that a constructor builds is never empty: a
    date given and not empty is kept, and one that is missing or empty is
    replaced by the day of construction; both classes agree on it. *)
Theorem constructor_date (today : Py.date) (id : Z)
    (patient_name doctor_name reason : string) (duration urgency : Z)
    (date : option string) :
  let visit := MedicalRecord_init today id patient_name doctor_name reason
                 duration date in
  let emergency := EmergencyRecord_init today id patient_name doctor_name reason
                     duration urgency date in
  Py.truthy (Rec.date visit) = true ∧
  Rec.date emergency = Rec.date visit ∧
  (∀ d, date = Some d → d ≠ EmptyString → Rec.date visit = d) ∧
  (date = None ∨ date = Some EmptyString → Rec.date visit = Py.isoformat today).
Proof.
  split_and!.
  - apply date_or_today_truthy.
  - done.
  - intros d -> Hd. simpl. unfold Rec.date. simpl. by destruct d.
  - by intros [-> | ->].
Qed.

Lemma constructor_date_witness :
  Rec.date Example.emergency = "2024-05-17" ∧
  (Some "2024-05-01" = Some "2024-05-01" → "2024-05-01" ≠ EmptyString →
   Rec.date Example.visit = "2024-05-01").
Proof.
  split; [reflexivity|].
  destruct (constructor_date Example.today 1 "Smirnov" "Petrova" "checkup" 15 0
              (Some "2024-05-01")) as (_ & _ & H & _).
  exact (H "2024-05-01").
Defined.

(** ** Saving and loading *)



(** X5. What a round trip through a file does to any collection that is not
    empty: the new collection has a record for each record, in order, with
    the same id and duration, with the texts as universal newlines translate
    them, with the date replaced by the day of loading if it was empty, and
    of the emergency class, with the same urgency, exactly when the urgency
    written was greater than 0. *)
Theorem save_load_reloads (today : Py.date) (w : world) (collection : ref)
    (recs : list record) (filename : string) :
  heap w !! collection = Some recs →
  recs ≠ [] →
  ∃ w' recs',
    (MedicalRecordsCollection.save_to_csv collection filename;;
     MedicalRecordsCollection.load_from_csv today filename) w
    = (Some (length (heap w)), w') ∧
    heap w' !! length (heap w) = Some recs' ∧
    heap w' !! collection = Some recs ∧
    Forall2 (λ r r',
      Rec.id r' = Rec.id r ∧
      Rec.duration r' = Rec.duration r ∧
      Rec.patient_name r' = File.universal_newlines (Rec.patient_name r) ∧
      Rec.doctor_name r' = File.universal_newlines (Rec.doctor_name r) ∧
      Rec.reason r' = File.universal_newlines (Rec.reason r) ∧
      Rec.date r' = date_or_today today (Some (File.universal_newlines (Rec.date r))) ∧
      (is_emergency r' = true ↔ 0 < getattr_urgency r 0) ∧
      getattr_urgency r' 0 = Z.max 0 (getattr_urgency r 0)) recs recs'.
Proof.
  intros Hc Hrecs. eexists _, (reload today <$> recs). split.
  { by apply save_load. }
  simpl. split_and!.
  - apply lookup_snoc.
  - by apply lookup_app_l_Some.
  - clear Hc Hrecs. induction recs as [|r recs IH]; [constructor|].
    rewrite fmap_cons. constructor; [|done].
    unfold reload. destruct (Z.ltb_spec 0 (getattr_urgency r 0)); simpl.
    + split_and!; try done. lia.
    + split_and!; try done; [|lia]. split; [done|lia].
Qed.

Lemma save_load_reloads_witness :
  heap Example.w_dictated !! 0%nat = Some [Example.dictated] ∧
  ∃ w' recs',
    (MedicalRecordsCollection.save_to_csv 0%nat "data.csv";;
     MedicalRecordsCollection.load_from_csv Example.today "data.csv") Example.w_dictated
    = (Some 1%nat, w') ∧
    heap w' !! 1%nat = Some recs' ∧
    Forall2 (λ r r', Rec.reason r' = File.universal_newlines (Rec.reason r))
      [Example.dictated] recs'.
Proof.
  split; [reflexivity|].
  destruct (save_load_reloads Example.today Example.w_dictated 0%nat
              [Example.dictated] "data.csv" eq_refl ltac:(discriminate))
    as (w' & recs' & Hrun & Hnew & _ & Hall).
  exists w', recs'. split; [exact Hrun|]. split; [exact Hnew|].
  eapply Forall2_impl; [exact Hall|]. intros r r' H. apply H.
Defined.




(** ** Sorting and filtering together *)

Section sorted_more.
Context {A K : Type} (key : A → K) (lt : K → K → bool).
Hypothesis lt_irrefl : ∀ k, lt k k = false.
Hypothesis lt_trans : ∀ a b c, lt a b = true → lt b c = true → lt a c = true.

Lemma insort_last x l :
  Forall (λ y, lt (key x) (key y) = false) l → Py.insort key lt x l = l ++ [x].
Proof.
  induction 1 as [|y l Hy _ IH]; simpl; [done|].
  by rewrite Hy, IH.
Qed.

(** A list in order is sorted to itself. *)
Lemma sorted_fixed l :
  StronglySorted (λ a b, lt (key b) (key a) = false) l → Py.sorted key lt l = l.
Proof.
  induction l as [|x l IH] using rev_ind; [done|].
  intros (Hlx & Hl & _)%StronglySorted_app.
  rewrite sorted_snoc, IH by done.
  apply insort_last, Forall_forall. intros y Hy. apply Hlx; [done|set_solver].
Qed.

Lemma sorted_idempotent l :
  Py.sorted key lt (Py.sorted key lt l) = Py.sorted key lt l.
Proof. by apply sorted_fixed, sorted_sorted. Qed.

Hypothesis lt_neg_trans :
  ∀ a b c, lt a b = true → lt a c = true ∨ lt c b = true.

Lemma insort_head x l :
  (∀ z, head l = Some z → lt (key x) (key z) = true) →
  Py.insort key lt x l = x :: l.
Proof. destruct l as [|z l]; simpl; [done|]. intros Hz. by rewrite Hz. Qed.

Lemma insort_filter (P : A → Prop) `{∀ a, Decision (P a)} x l :
  StronglySorted (λ a b, lt (key b) (key a) = false) l →
  filter P (Py.insort key lt x l)
  = if decide (P x) then Py.insort key lt x (filter P l) else filter P l.
Proof.
  induction 1 as [|y l Hl IH Hy]; simpl.
  { rewrite filter_cons, filter_nil. by case_decide. }
  destruct (lt (key x) (key y)) eqn:Hxy.
  - rewrite (filter_cons _ x). case_decide; [|done].
    rewrite insort_head; [done|].
    intros z Hz. apply head_Some_elem_of in Hz.
    apply list_elem_of_filter in Hz as [_ Hz].
    apply elem_of_cons in Hz as [->|Hz]; [done|].
    rewrite Forall_forall in Hy. specialize (Hy z Hz). simpl in Hy.
    destruct (lt_neg_trans _ _ (key z) Hxy); [done|congruence].
  - rewrite !(filter_cons _ y). rewrite IH.
    repeat case_decide; simpl; by rewrite ?Hxy.
Qed.

(** Sorting what was filtered is filtering what was sorted. *)
Lemma sorted_filter (P : A → Prop) `{∀ a, Decision (P a)} l :
  Py.sorted key lt (filter P l) = filter P (Py.sorted key lt l).
Proof.
  induction l as [|x l IH] using rev_ind; [done|].
  rewrite filter_app, sorted_snoc, insort_filter by by apply sorted_sorted.
  rewrite filter_cons, filter_nil.
  case_decide.
  - by rewrite sorted_snoc, IH.
  - by rewrite app_nil_r.
Qed.

End sorted_more.

Lemma sort_by_patient_name_run w self recs :
  heap w !! self = Some recs →
  MedicalRecordsCollection.sort_by_patient_name self w
  = (length (heap w),
     World (heap w ++ [Py.sorted Rec.patient_name String.ltb recs])
           (files w) (stdout w)).
Proof. apply (derive_spec (Py.sorted Rec.patient_name String.ltb)). Qed.

Lemma sort_by_duration_run w self recs :
  heap w !! self = Some recs →
  MedicalRecordsCollection.sort_by_duration self w
  = (length (heap w),
     World (heap w ++ [Py.sorted Rec.duration Z.ltb recs]) (files w) (stdout w)).
Proof. apply (derive_spec (Py.sorted Rec.duration Z.ltb)). Qed.

Lemma filter_by_duration_run w self recs N :
  heap w !! self = Some recs →
  MedicalRecordsCollection.filter_by_duration self N w
  = (length (heap w),
     World (heap w ++ [filter (λ r, N < Rec.duration r) recs]) (files w) (stdout w)).
Proof. apply (derive_spec (filter (λ r, N < Rec.duration r))). Qed.

(** X8. Sorting a collection that was sorted by the same key changes
    nothing: the second new collection has the records in the order of the
    first. *)
Theorem sort_twice (w : world) (self : ref) (recs : list record) :
  heap w !! self = Some recs →
  let by_name := Py.sorted Rec.patient_name String.ltb recs in
  let by_duration := Py.sorted Rec.duration Z.ltb recs in
  (c ← MedicalRecordsCollection.sort_by_patient_name self;
   MedicalRecordsCollection.sort_by_patient_name c) w
  = (S (length (heap w)),
     World (heap w ++ [by_name; by_name]) (files w) (stdout w)) ∧
  (c ← MedicalRecordsCollection.sort_by_duration self;
   MedicalRecordsCollection.sort_by_duration c) w
  = (S (length (heap w)),
     World (heap w ++ [by_duration; by_duration]) (files w) (stdout w)).
Proof.
  intros Hself by_name by_duration. split.
  - unfold mbind at 1, M_bind at 1.
    rewrite (sort_by_patient_name_run _ _ recs) by done.
    rewrite (sort_by_patient_name_run _ _ by_name) by apply lookup_snoc.
    simpl. rewrite length_app, <- app_assoc. simpl.
    unfold by_name. rewrite sorted_idempotent
      by (apply string_ltb_irrefl || apply string_ltb_trans).
    by replace (length (heap w) + 1)%nat with (S (length (heap w))) by lia.
  - unfold mbind at 1, M_bind at 1.
    rewrite (sort_by_duration_run _ _ recs) by done.
    rewrite (sort_by_duration_run _ _ by_duration) by apply lookup_snoc.
    simpl. rewrite length_app, <- app_assoc. simpl.
    unfold by_duration. rewrite sorted_idempotent by (intros; lia).
    by replace (length (heap w) + 1)%nat with (S (length (heap w))) by lia.
Qed.

Lemma sort_twice_witness :
  heap Example.w0 !! 0%nat = Some [Example.visit; Example.emergency] ∧
  (c ← MedicalRecordsCollection.sort_by_patient_name 0%nat;
   MedicalRecordsCollection.sort_by_patient_name c) Example.w0
  = (2%nat,
     World [[Example.visit; Example.emergency];
            [Example.emergency; Example.visit];
            [Example.emergency; Example.visit]] ∅ []).
Proof.
  split; [reflexivity|].
  destruct (sort_twice Example.w0 0%nat [Example.visit; Example.emergency] eq_refl)
    as [H _].
  exact H.
Defined.

(** X9. Filtering by duration and sorting by duration can be done in either
    order: the last collection made holds the same records in the same
    order. *)
Theorem filter_sort_commute (w : world) (self : ref) (recs : list record) (N : Z) :
  heap w !! self = Some recs →
  let kept := filter (λ r, N < Rec.duration r) recs in
  let result := Py.sorted Rec.duration Z.ltb kept in
  (c ← MedicalRecordsCollection.filter_by_duration self N;
   MedicalRecordsCollection.sort_by_duration c) w
  = (S (length (heap w)),
     World (heap w ++ [kept; result]) (files w) (stdout w)) ∧
  (c ← MedicalRecordsCollection.sort_by_duration self;
   MedicalRecordsCollection.filter_by_duration c N) w
  = (S (length (heap w)),
     World (heap w ++ [Py.sorted Rec.duration Z.ltb recs; result])
           (files w) (stdout w)).
Proof.
  intros Hself kept result. split.
  - unfold mbind at 1, M_bind at 1.
    rewrite (filter_by_duration_run _ _ recs) by done.
    rewrite (sort_by_duration_run _ _ kept) by apply lookup_snoc.
    simpl. rewrite length_app, <- app_assoc. simpl.
    by replace (length (heap w) + 1)%nat with (S (length (heap w))) by lia.
  - unfold mbind at 1, M_bind at 1.
    rewrite (sort_by_duration_run _ _ recs) by done.
    rewrite (filter_by_duration_run _ _ (Py.sorted Rec.duration Z.ltb recs))
      by apply lookup_snoc.
    simpl. rewrite length_app, <- app_assoc. simpl.
    unfold result, kept. rewrite sorted_filter by (intros; lia).
    by replace (length (heap w) + 1)%nat with (S (length (heap w))) by lia.
Qed.

Lemma filter_sort_commute_witness :
  heap Example.w0 !! 0%nat = Some [Example.visit; Example.emergency] ∧
  (c ← MedicalRecordsCollection.sort_by_duration 0%nat;
   MedicalRecordsCollection.filter_by_duration c 20) Example.w0
  = (2%nat,
     World [[Example.visit; Example.emergency];
            [Example.visit; Example.emergency];
            [Example.emergency]] ∅ []).
Proof.
  split; [reflexivity|].
  destruct (filter_sort_commute Example.w0 0%nat [Example.visit; Example.emergency]
              20 eq_refl) as [_ H].
  exact H.
Defined.

(** X10. Filtering what was filtered keeps the records that are longer than
    both bounds. *)
Theorem filter_twice (w : world) (self : ref) (recs : list record) (N M : Z) :
  heap w !! self = Some recs →
  (c ← MedicalRecordsCollection.filter_by_duration self N;
   MedicalRecordsCollection.filter_by_duration c M) w
  = (S (length (heap w)),
     World (heap w ++ [filter (λ r, N < Rec.duration r) recs;
                       filter (λ r, Z.max N M < Rec.duration r) recs])
           (files w) (stdout w)).
Proof.
  intros Hself. unfold mbind at 1, M_bind at 1.
  rewrite (filter_by_duration_run _ _ recs) by done.
  rewrite (filter_by_duration_run _ _ (filter (λ r, N < Rec.duration r) recs))
    by apply lookup_snoc.
  simpl. rewrite length_app, <- app_assoc. simpl.
  rewrite list_filter_filter.
  replace (length (heap w) + 1)%nat with (S (length (heap w))) by lia.
  do 5 f_equal. apply list_filter_iff. intros r. lia.
Qed.

Lemma filter_twice_witness :
  heap Example.w0 !! 0%nat = Some [Example.visit; Example.emergency] ∧
  (c ← MedicalRecordsCollection.filter_by_duration 0%nat 10;
   MedicalRecordsCollection.filter_by_duration c 20) Example.w0
  = (2%nat,
     World [[Example.visit; Example.emergency];
            [Example.visit; Example.emergency];
            [Example.emergency]] ∅ []).
Proof.
  split; [reflexivity|].
  exact (filter_twice Example.w0 0%nat [Example.visit; Example.emergency] 10 20 eq_refl).
Defined.

(** X11. In the collection sorted by duration, the first record is one of
    the shortest visits and the last one is one of the longest. *)
Theorem sorted_ends (w : world) (self : ref) (recs : list record) :
  heap w !! self = Some recs →
  recs ≠ [] →
  let new := length (heap w) in
  let w' := World (heap w ++ [Py.sorted Rec.duration Z.ltb recs]) (files w) (stdout w) in
  MedicalRecordsCollection.sort_by_duration self w = (new, w') ∧
  ∃ shortest longest,
    MedicalRecordsCollection.getitem new 0 w' = (Ok shortest, w') ∧
    MedicalRecordsCollection.getitem new (-1) w' = (Ok longest, w') ∧
    shortest ∈ recs ∧ longest ∈ recs ∧
    ∀ r, r ∈ recs →
         Rec.duration shortest ≤ Rec.duration r ≤ Rec.duration longest.
Proof.
  intros Hself Hrecs new w'. split; [by apply sort_by_duration_run|].
  pose proof (sorted_perm Rec.duration Z.ltb recs) as Hperm.
  pose proof (sorted_sorted Rec.duration Z.ltb ltac:(intros; lia) ltac:(intros; lia) recs)
    as Hsorted.
  unfold w', new. clear w' new.
  destruct (Py.sorted Rec.duration Z.ltb recs) as [|shortest rest] eqn:Hs.
  { by apply Permutation_nil_l in Hperm. }
  destruct (last (shortest :: rest)) as [longest|] eqn:Hlast;
    [|by apply last_None in Hlast].
  exists shortest, longest. split_and!.
  - run_M. by rewrite lookup_snoc.
  - run_M. rewrite lookup_snoc. simpl.
    unfold MedicalRecordsCollection.list_getitem. simpl.
    rewrite last_lookup in Hlast. simpl in Hlast.
    replace (-1 + Z.of_nat (S (length rest))) with (Z.of_nat (length rest)) by lia.
    destruct (Z.ltb_spec (Z.of_nat (length rest)) 0); [lia|].
    by rewrite Nat2Z.id, Hlast.
  - rewrite <- Hperm. set_solver.
  - rewrite <- Hperm. apply last_Some_elem_of in Hlast. done.
  - intros r Hr. rewrite <- Hperm in Hr. split.
    + apply StronglySorted_cons in Hsorted as [Hfirst _].
      destruct (proj1 (elem_of_cons _ _ _) Hr) as [->|Hr']; [done|].
      rewrite Forall_forall in Hfirst. specialize (Hfirst r Hr'). simpl in Hfirst. lia.
    + apply last_Some in Hlast as [front Hfront]. rewrite Hfront in Hsorted, Hr.
      destruct (proj1 (elem_of_app _ _ _) Hr) as [Hr'|Hr'].
      * pose proof (StronglySorted_app_1_elem_of _ _ _ r longest Hsorted Hr') as Hle.
        simpl in Hle. specialize (Hle ltac:(by constructor)). lia.
      * apply list_elem_of_singleton in Hr'. subst r. lia.
Qed.

Lemma sorted_ends_witness :
  heap Example.w0 !! 0%nat = Some [Example.visit; Example.emergency] ∧
  ∃ shortest longest,
    shortest ∈ [Example.visit; Example.emergency] ∧
    longest ∈ [Example.visit; Example.emergency] ∧
    ∀ r, r ∈ [Example.visit; Example.emergency] →
         Rec.duration shortest ≤ Rec.duration r ≤ Rec.duration longest.
Proof.
  split; [reflexivity|].
  destruct (sorted_ends Example.w0 0%nat [Example.visit; Example.emergency]
              eq_refl ltac:(discriminate))
    as (_ & shortest & longest & _ & _ & Hs & Hl & Hall).
  exists shortest, longest. split; [exact Hs|]. split; [exact Hl|exact Hall].
Defined.

(** ** Generators and the records added meanwhile *)

(** X12. A generator is lazy: a record added after the generator was made
    and before it is consumed is yielded too, when it passes the test. *)
Theorem generator_sees_added (w : world) (self : ref) (recs : list record)
    (r : record) (name : string) (fuel : nat) :
  heap w !! self = Some recs →
  (S (length recs) < fuel)%nat →
  let w' := World (<[self := recs ++ [r]]> (heap w)) (files w) (stdout w) in
  let emergencies := MedicalRecordsCollection.get_emergency_records self in
  let by_doctor := MedicalRecordsCollection.get_records_by_doctor self name in
  (MedicalRecordsCollection.add self r;;
   MedicalRecordsCollection.drain fuel emergencies) w
  = (Some (filter (λ x, is_emergency x = true) (recs ++ [r])), w') ∧
  (MedicalRecordsCollection.add self r;;
   MedicalRecordsCollection.drain fuel by_doctor) w
  = (Some (filter (λ x, Rec.doctor_name x = name) (recs ++ [r])), w').
Proof.
  intros Hself Hfuel w' emergencies by_doctor.
  assert (MedicalRecordsCollection.add self r w = (tt, w')) as Hadd.
  { run_M. by rewrite Hself. }
  assert (heap w' !! self = Some (recs ++ [r])) as Hself'.
  { simpl. apply list_lookup_insert_eq. by eapply lookup_lt_Some. }
  split; unfold mbind, M_bind; rewrite Hadd.
  - unfold emergencies, MedicalRecordsCollection.get_emergency_records.
    rewrite (drain_from _ _ _ (recs ++ [r])); [by rewrite drop_0|done|].
    rewrite length_app. simpl. lia.
  - unfold by_doctor, MedicalRecordsCollection.get_records_by_doctor.
    rewrite (drain_from _ _ _ (recs ++ [r])); [|done|rewrite length_app; simpl; lia].
    rewrite drop_0. do 2 f_equal. apply list_filter_iff.
    intros x. apply bool_decide_eq_true.
Qed.

Lemma generator_sees_added_witness :
  heap Example.w0 !! 0%nat = Some [Example.visit; Example.emergency] ∧
  (3 < 4)%nat ∧
  (MedicalRecordsCollection.add 0%nat Example.unranked;;
   MedicalRecordsCollection.drain 4
     (MedicalRecordsCollection.get_emergency_records 0%nat)) Example.w0
  = (Some [Example.emergency; Example.unranked],
     World [[Example.visit; Example.emergency; Example.unranked]] ∅ []).
Proof.
  split; [reflexivity|]. split; [lia|].
  destruct (generator_sees_added Example.w0 0%nat [Example.visit; Example.emergency]
              Example.unranked "Petrova" 4 eq_refl ltac:(simpl; lia)) as [H _].
  exact H.
Defined.

(** ** The id of a new record *)

Lemma foldl_max_ge (a : Z) (l : list Z) :
  a ≤ foldl Z.max a l ∧ ∀ x, x ∈ l → x ≤ foldl Z.max a l.
Proof.
  revert a. induction l as [|y l IH]; intros a; simpl.
  { split; [lia|]. intros x Hx. by apply elem_of_nil in Hx. }
  destruct (IH (Z.max a y)) as [Ha Hl]. split; [lia|].
  intros x [->|Hx]%elem_of_cons; [lia|by apply Hl].
Qed.

(** X13. The id that the menu gives to a new record is 1 for an empty
    collection and otherwise greater than the id of every record: the new
    record never takes an id that is in use, and ids that were distinct stay
    distinct when it is added. *)
Theorem next_id_fresh (w : world) (self : ref) (recs : list record) (r : record) :
  heap w !! self = Some recs →
  Rec.id r = Main.next_id recs →
  Main.next_id [] = 1 ∧
  (∀ x, x ∈ recs → Rec.id x < Rec.id r) ∧
  (NoDup (Rec.id <$> recs) →
   ∃ w', MedicalRecordsCollection.add self r w = (tt, w') ∧
         heap w' !! self = Some (recs ++ [r]) ∧
         NoDup (Rec.id <$> (recs ++ [r]))).
Proof.
  intros Hself Hid.
  assert (∀ x, x ∈ recs → Rec.id x < Rec.id r) as Hfresh.
  { rewrite Hid. destruct recs as [|r0 recs]; [by intros x Hx%elem_of_nil|].
    simpl. destruct (foldl_max_ge (Rec.id r0) (Rec.id <$> recs)) as [H0 Hl].
    intros x [->|Hx]%elem_of_cons; [lia|].
    specialize (Hl (Rec.id x) ltac:(by apply list_elem_of_fmap_2)). lia. }
  split_and!; [done|done|].
  intros Hnodup. eexists. split_and!.
  - run_M. by rewrite Hself.
  - simpl. apply list_lookup_insert_eq. by eapply lookup_lt_Some.
  - rewrite fmap_app. apply NoDup_app. split_and!; [done| |apply NoDup_singleton].
    intros i Hi Hi'. apply list_elem_of_fmap in Hi as (x & -> & Hx).
    apply list_elem_of_singleton in Hi'. specialize (Hfresh x Hx). lia.
Qed.

Lemma next_id_fresh_witness :
  heap Example.w0 !! 0%nat = Some [Example.visit; Example.emergency] ∧
  Rec.id Example.unranked = Main.next_id [Example.visit; Example.emergency] ∧
  ∀ x, x ∈ [Example.visit; Example.emergency] → Rec.id x < 3.
Proof.
  split; [reflexivity|]. split; [reflexivity|].
  destruct (next_id_fresh Example.w0 0%nat [Example.visit; Example.emergency]
              Example.unranked eq_refl eq_refl) as (_ & H & _).
  exact H.
Defined.

(** ** The table on the console *)

Lemma print_records_spec (records : list record) (w : world) :
  MedicalRecordsCollection.print_records records w
  = (tt, World (heap w) (files w) (stdout w ++ (Print ∘ record_str <$> records))).
Proof.
  revert w. induction records as [|r records IH]; intros w.
  - simpl. rewrite app_nil_r. by destruct w.
  - simpl. run_M. rewrite IH. simpl. by rewrite <- app_assoc.
Qed.



(** ** Files without records *)

(** X15. A file that holds nothing, or a header alone, or a header and blank
    lines, loads as an empty collection, with the message that 0 records
    were loaded; saving that collection then writes nothing. *)
Theorem load_header_only (today : Py.date) (w : world) (filename content : string)
    (rows : list (list string)) :
  files w !! filename = Some content →
  csv.reader (File.readlines (File.universal_newlines content)) = (rows, None) →
  Forall (λ row, row = []) (tail rows) →
  let collection := length (heap w) in
  let w' := World (heap w ++ [[]]) (files w)
                  (stdout w ++ [Print ("Загружено 0 записей из " +:+ filename)]) in
  MedicalRecordsCollection.load_from_csv today filename w = (Some collection, w') ∧
  ∀ target,
    MedicalRecordsCollection.save_to_csv collection target w'
    = (tt, World (heap w') (files w')
                 (stdout w' ++ [Print "Нет данных для сохранения!"])).
Proof.
  intros Hfile Hreader Hblank collection w'. split.
  - rewrite (load_from_csv_spec _ _ _ content) by done.
    unfold csv.DictReader. rewrite Hreader.
    destruct rows as [|fieldnames rows]; [done|].
    simpl in Hblank. rewrite filter_none; [done|].
    eapply Forall_impl; [exact Hblank|]. by intros row -> ?.
  - intros target. unfold MedicalRecordsCollection.save_to_csv, w', collection.
    run_M. by rewrite lookup_snoc.
Qed.

Lemma load_header_only_witness :
  files Example.w_blank !! "data.csv" = Some Example.blank ∧
  csv.reader (File.readlines (File.universal_newlines Example.blank))
    = ([MedicalRecordsCollection.fieldnames; []], None) ∧
  MedicalRecordsCollection.load_from_csv Example.today "data.csv" Example.w_blank
  = (Some 0%nat,
     World [[]] (files Example.w_blank) [Print "Загружено 0 записей из data.csv"]).
Proof.
  assert (files Example.w_blank !! "data.csv" = Some Example.blank) as Hfile
    by reflexivity.
  assert (csv.reader (File.readlines (File.universal_newlines Example.blank))
          = ([MedicalRecordsCollection.fieldnames; []], None)) as Hreader
    by (vm_compute; reflexivity).
  split; [exact Hfile|]. split; [exact Hreader|].
  destruct (load_header_only Example.today Example.w_blank "data.csv" Example.blank
              [MedicalRecordsCollection.fieldnames; []] Hfile Hreader
              ltac:(repeat constructor)) as [H _].
  exact H.
Defined.

(** ** What is loaded survives a round trip *)

Lemma no_cr_app (a b : string) : no_cr (a +:+ b) = no_cr a && no_cr b.
Proof.
  induction a as [|c a IH]; [done|].
  rewrite append_cons. simpl. by rewrite IH, andb_assoc.
Qed.

Lemma translate_clean (b : bool) (s : string) : no_cr (File.translate b s) = true.
Proof.
  revert b. induction s as [|c s IH]; intros b; [done|]. simpl.
  destruct (Ascii.eqb c CR) eqn:Hcr; simpl; [by rewrite IH|].
  destruct (Ascii.eqb_spec c LF) as [->|Hlf].
  - destruct b; simpl; by rewrite IH.
  - simpl. by rewrite Hcr, IH.
Qed.

Lemma lines_from_clean (line s : string) :
  no_cr line = true → no_cr s = true →
  Forall (λ l, no_cr l = true) (File.lines_from line s).
Proof.
  revert line. induction s as [|c s IH]; intros line Hline Hs; simpl.
  - destruct (Py.is_empty line); by repeat constructor.
  - simpl in Hs. apply andb_true_iff in Hs as [Hc Hs].
    assert (no_cr (line +:+ String c EmptyString) = true) as Hline'.
    { rewrite no_cr_app, Hline. simpl. by rewrite Hc. }
    destruct (Ascii.eqb c LF); [constructor; [done|]|]; by apply IH.
Qed.

Lemma process_clean (self self' : csv.ReaderObj) (c : option ascii) :
  clean self →
  (∀ x, c = Some x → Ascii.eqb x CR = false) →
  csv.parse_process_char self c = Ok self' →
  clean self'.
Proof.
  intros [Hfields Hfield] Hc.
  assert (∀ st, clean (csv.set_state self st)) as Hset by done.
  assert (∀ st, clean (csv.parse_save_field self st)) as Hsave.
  { intros st. split; [|done]. simpl. apply Forall_app. by repeat constructor. }
  assert (∀ x st, c = Some x → clean (csv.parse_add_char self x st)) as Hadd.
  { intros x st Hx. split; [done|]. simpl.
    rewrite no_cr_app, Hfield. simpl. by rewrite (Hc x Hx). }
  unfold csv.parse_process_char.
  assert (clean self) as Hself by done.
  destruct c as [x|]; repeat case_match; intros [= <-]; auto.
Qed.

Lemma parse_line_clean (line : string) (self self' : csv.ReaderObj) :
  clean self → no_cr line = true →
  csv.parse_line self line = Ok self' → clean self'.
Proof.
  revert self. induction line as [|c line IH]; intros self Hself Hline; simpl.
  { by intros [= <-]. }
  simpl in Hline. apply andb_true_iff in Hline as [Hc Hline].
  destruct (csv.parse_process_char self (Some c)) as [self1|] eqn:Hstep; [|done].
  apply IH; [|done].
  eapply process_clean; [exact Hself| |exact Hstep].
  intros x [= <-]. by apply negb_true_iff.
Qed.

Lemma reader_from_clean (lines : list string) (self : csv.ReaderObj) :
  clean self →
  Forall (λ l, no_cr l = true) lines →
  Forall (Forall (λ cell, no_cr cell = true)) (csv.reader_from self lines).1.
Proof.
  intros Hself Hlines. revert self Hself.
  induction Hlines as [|line lines Hline _ IH]; intros self Hself; simpl.
  - destruct Hself as [Hfields Hfield].
    case_match; simpl; [|done].
    constructor; [|done]. apply Forall_app. by repeat constructor.
  - destruct (csv.parse_line self line) as [self1|] eqn:Hparse; [|done].
    pose proof (parse_line_clean _ _ _ Hself Hline Hparse) as Hself1.
    destruct (csv.parse_process_char self1 None) as [self2|] eqn:Hstep; [|done].
    assert (clean self2) as Hself2.
    { eapply process_clean; [exact Hself1| |exact Hstep]. by intros x [=]. }
    case_decide.
    + specialize (IH csv.parse_reset ltac:(by split)).
      destruct (csv.reader_from csv.parse_reset lines) as [rows e]. simpl in *.
      constructor; [apply Hself2|done].
    + by apply IH.
Qed.

(** The cells of a row of a [DictReader] are cells that the reader read. *)
Lemma make_dict_cells (fieldnames row : list string) (key cell : string) :
  csv.make_dict fieldnames row !! key = Some (Some cell) → cell ∈ row.
Proof.
  unfold csv.make_dict.
  set (Q := λ d : gmap string (option string),
              ∀ k s, d !! k = Some (Some s) → s ∈ row).
  assert (∀ kvs d, Q d → (∀ kv : string * string, kv ∈ kvs → kv.2 ∈ row) →
            Q (foldl (λ d kv, <[kv.1 := Some kv.2]> d) d kvs)) as Hcells.
  { induction kvs as [|kv kvs IH]; intros d Hd Hkvs; simpl; [done|].
    apply IH.
    - intros k s [[_ [= <-]]|[_ Hs]]%lookup_insert_Some.
      + apply Hkvs. by constructor.
      + by eapply Hd.
    - intros kv' Hkv'. apply Hkvs. by constructor. }
  assert (∀ keys d, Q d → Q (foldl (λ d k, <[k := None]> d) d keys)) as Hnone.
  { induction keys as [|k0 keys IH]; intros d Hd; simpl; [done|].
    apply IH. intros k s [[_ [=]]|[_ Hs]]%lookup_insert_Some. by eapply Hd. }
  intros Hcell. eapply (Hnone _ _ _ key cell Hcell). Unshelve.
  apply Hcells.
  - intros k s. by rewrite lookup_empty.
  - intros [k v] Hkv. simpl. by eapply elem_of_zip_r.
Qed.

Lemma digits_clean (s : string) : all_digits s = true → no_cr s = true.
Proof.
  induction s as [|c s IH]; simpl; [done|].
  intros [Hc Hs]%andb_true_iff. rewrite IH by done.
  apply is_digit_cases in Hc. set_unfold. by destruct_or!; subst.
Qed.

Lemma zfill_clean (width n : nat) : no_cr (Py.zfill width n) = true.
Proof.
  unfold Py.zfill. rewrite no_cr_app. apply andb_true_iff. split.
  - induction (width - _)%nat as [|k IH]; [done|]. simpl.
    destruct (replicate k "0"); [done|].
    by rewrite !no_cr_app, IH.
  - destruct (str_shape (Z.of_nat n)) as (s & Hs & [-> | ->]); simpl;
      by apply digits_clean.
Qed.

Lemma isoformat_clean (today : Py.date) : no_cr (Py.isoformat today) = true.
Proof.
  unfold Py.isoformat. rewrite !no_cr_app, !zfill_clean. done.
Qed.

Lemma built_survives today (row : gmap string (option string)) (r : record) :
  (∀ key cell, row !! key = Some (Some cell) → no_cr cell = true) →
  MedicalRecordsCollection.record_of_row today row = MedicalRecordsCollection.Built r →
  survives r.
Proof.
  intros Hcells.
  assert (no_cr (date_or_today today (mjoin (row !! "date"))) = true) as Hdate.
  { unfold date_or_today.
    destruct (row !! "date") as [[d|]|] eqn:Hd; simpl;
      [|apply isoformat_clean..].
    destruct (Py.truthy d); [by eapply Hcells|apply isoformat_clean]. }
  pose proof (date_or_today_truthy today (mjoin (row !! "date"))) as Htruthy.
  unfold MedicalRecordsCollection.record_of_row, MedicalRecordsCollection.int_of_key,
    MedicalRecordsCollection.int_of_urgency, MedicalRecordsCollection.row_getitem,
    MedicalRecordsCollection.int_of_cell.
  destruct (row !! "id") as [[ids|]|]; [|done..].
  destruct (Py.int ids) as [id|]; [|done].
  destruct (row !! "duration") as [[dus|]|]; [|done..].
  destruct (Py.int dus) as [du|]; [|done].
  assert (∀ u,
    match MedicalRecordsCollection.row_getitem row "patient_name" with
    | Ok patient_name =>
        match MedicalRecordsCollection.row_getitem row "doctor_name" with
        | Ok doctor_name =>
            match MedicalRecordsCollection.row_getitem row "reason" with
            | Ok reason =>
                match patient_name, doctor_name, reason with
                | Some patient_name, Some doctor_name, Some reason =>
                    if 0 <? u
                    then MedicalRecordsCollection.Built
                           (EmergencyRecord_init today id patient_name doctor_name
                              reason du u (mjoin (row !! "date")))
                    else MedicalRecordsCollection.Built
                           (MedicalRecord_init today id patient_name doctor_name
                              reason du (mjoin (row !! "date")))
                | _, _, _ => MedicalRecordsCollection.Untyped
                end
            | Raise e => MedicalRecordsCollection.Raised e
            end
        | Raise e => MedicalRecordsCollection.Raised e
        end
    | Raise e => MedicalRecordsCollection.Raised e
    end = MedicalRecordsCollection.Built r → survives r) as Hbody.
  { intros u. unfold MedicalRecordsCollection.row_getitem.
    destruct (row !! "patient_name") as [[pn|]|] eqn:Hpn;
      destruct (row !! "doctor_name") as [[dn|]|] eqn:Hdn;
      destruct (row !! "reason") as [[rs|]|] eqn:Hrs; try done.
    pose proof (Hcells _ _ Hpn). pose proof (Hcells _ _ Hdn).
    pose proof (Hcells _ _ Hrs).
    destruct (Z.ltb_spec 0 u); intros [= <-]; unfold survives; simpl;
      split_and!; try done. intros _. lia. }
  destruct (row !! "urgency") as [[us|]|]; [|done|by apply Hbody].
  destruct (Py.int us) as [u|]; [by apply Hbody|done].
Qed.

Lemma loaded_survive today (rows : list (gmap string (option string))) :
  Forall (λ row, ∀ key cell, row !! key = Some (Some cell) → no_cr cell = true) rows →
  Forall survives (loaded today rows).1.
Proof.
  induction 1 as [|row rows Hrow _ IH]; simpl; [done|].
  destruct (MedicalRecordsCollection.record_of_row today row) as [r|e|] eqn:Hr;
    [|done..].
  destruct (loaded today rows) as [records ending]. simpl in *.
  constructor; [by eapply built_survives|done].
Qed.

Lemma DictReader_clean (content : string) :
  Forall (λ row : gmap string (option string),
            ∀ key cell, row !! key = Some (Some cell) → no_cr cell = true)
    (csv.DictReader (File.readlines (File.universal_newlines content))).1.
Proof.
  unfold csv.DictReader, csv.reader.
  pose proof (reader_from_clean
                (File.readlines (File.universal_newlines content)) csv.parse_reset
                ltac:(by split)
                ltac:(by apply lines_from_clean; [|apply translate_clean]))
    as Hrows.
  destruct (csv.reader_from _ _) as [rows e]. simpl in Hrows.
  destruct rows as [|fieldnames rows]; simpl; [done|].
  apply Forall_cons in Hrows as [_ Hrows].
  apply Forall_fmap, Forall_forall. intros row Hrow%list_elem_of_filter key cell Hcell.
  destruct Hrow as [_ Hrow]. rewrite Forall_forall in Hrows.
  specialize (Hrows row Hrow). rewrite Forall_forall in Hrows.
  apply Hrows. by eapply make_dict_cells.
Qed.


